(** * sms-message: the admission gate of the SMS front-end

    Shallow embedding of the two Express servers of the repository:

    - the regional (Philippine / Twilio) server, with phone validation,
      a per-destination cooldown map, the provider call and its error
      classification, and the periodic sweep of the cooldown map;
    - the generic server ([server.js]), which validates loosely and only
      simulates the send.

    JavaScript strings are sequences of UTF-16 code units, so they are
    modelled as lists of numbers; the regular expressions of the source
    are kept as regular-expression terms and run by a derivative matcher.
    A query parameter is a string, an array or an object, as the query
    parser of Express hands them over.  Clock readings ([Date.now()]) are
    integers of milliseconds. *)

From Stdlib Require Import ZArith Ascii String DecimalString.
From Stdlib Require QArith.
From stdpp Require Import gmap list fin_maps.

Local Open Scope Z_scope.

(** ** JavaScript strings *)

Module Js.

(** A string is its list of UTF-16 code units. *)
Definition str := list N.

Fixpoint lit (s : string) : str :=
  match s with
  | EmptyString => []
  | String a rest => N_of_ascii a :: lit rest
  end.

(** [s.length] *)
Definition len (s : str) : Z := Z.of_nat (length s).

(** The character class [\s] of ECMAScript: WhiteSpace and LineTerminator. *)
Definition is_space (c : N) : bool :=
  ((9 <=? c) && (c <=? 13) || (c =? 32) || (c =? 160) || (c =? 5760)
   || (8192 <=? c) && (c <=? 8202) || (c =? 8232) || (c =? 8233)
   || (c =? 8239) || (c =? 8287) || (c =? 12288) || (c =? 65279))%N.

(** The character class [\d]: the ten ASCII digits only. *)
Definition is_digit (c : N) : bool := ((48 <=? c) && (c <=? 57))%N.

(** [[1-9]] *)
Definition is_digit19 (c : N) : bool := ((49 <=? c) && (c <=? 57))%N.

Definition hyphen : N := 45%N.

(** [s.replace(/[\s\-]/g, '')] *)
Definition strip_space_hyphen (s : str) : str :=
  filter (λ c, negb (is_space c || (c =? hyphen)%N) = true) s.

(** [s.replace(/\s/g, '')] *)
Definition strip_space (s : str) : str :=
  filter (λ c, negb (is_space c) = true) s.

(** [s.startsWith(p)], returning what follows the prefix. *)
Fixpoint after_prefix (p s : str) : option str :=
  match p, s with
  | [], _ => Some s
  | a :: p', b :: s' => if (a =? b)%N then after_prefix p' s' else None
  | _ :: _, [] => None
  end.

(** [s.replace(/^p/, r)] for a literal prefix [p]: only a match at the
    very start of [s] is replaced. *)
Definition replace_prefix (p r s : str) : str :=
  match after_prefix p s with
  | Some rest => r ++ rest
  | None => s
  end.

(** [hay.includes(needle)] *)
Fixpoint includes (needle hay : str) : bool :=
  match after_prefix needle hay with
  | Some _ => true
  | None => match hay with
            | [] => false
            | _ :: hay' => includes needle hay'
            end
  end.

(** [s.substr(start, count)] for non-negative arguments. *)
Definition substr (start count : nat) (s : str) : str :=
  take count (drop start s).

(** [s.substring(0, n)] *)
Definition substring0 (n : nat) (s : str) : str := take n s.

(** Template-literal rendering of an integer, [`${n}`]. *)
Definition of_int (n : Z) : str := lit (NilZero.string_of_int (Z.to_int n)).

(** Truthiness of a number that is not NaN: only zero is falsy. *)
Definition truthy_num (n : Z) : bool := negb (n =? 0).

(** Truthiness of a string: only the empty string is falsy. *)
Definition truthy_str (s : str) : bool :=
  match s with [] => false | _ => true end.

(** What ECMAScript's ToNumber makes of a value.  The servers only ever
    compare such a number with [>] against an integer bound. *)
Inductive number :=
| NaN
| Infinity (negative : bool)
| Finite (q : QArith_base.Q).

(** [x > n]; NaN is greater than nothing. *)
Definition exceeds (x : number) (n : Z) : bool :=
  match x with
  | NaN => false
  | Infinity negative => negb negative
  | Finite q => negb (QArith_base.Qle_bool q (QArith_base.inject_Z n))
  end.

(** A parameter of [req.query].  A key that is repeated ([a=1&a=2]) or
    bracketed ([a[]=1], [a[k]=1]) arrives as an array or as an object.  Of
    an object the servers read [length] only, and only to compare it with a
    bound; the conversion of that property to a number is not modelled, the
    object comes with the number ([NaN] when it has no such property). *)
#[local] Unset Elimination Schemes.
Inductive value :=
| VStr (s : str)
| VArr (items : list value)
| VObj (fields : list (str * value)) (length_number : number).
#[local] Set Elimination Schemes.

(** Truthiness: of the values above only the empty string is falsy. *)
Definition truthy (v : value) : bool :=
  match v with
  | VStr s => truthy_str s
  | VArr _ => true
  | VObj _ _ => true
  end.

(** [v.length > n]: code units of a string, elements of an array. *)
Definition length_exceeds (v : value) (n : Z) : bool :=
  match v with
  | VStr s => len s >? n
  | VArr items => Z.of_nat (length items) >? n
  | VObj _ x => exceeds x n
  end.

(** [Math.ceil(a / b)] for integers [a] and a positive integer [b]; the
    quotients that occur are far below 2^53, where the floating-point
    division followed by [Math.ceil] is the exact ceiling. *)
Definition ceil_div (a b : Z) : Z := - ((- a) / b).

End Js.

(** ** Regular expressions *)

Module Re.

(** The fragment the two servers use: character classes, concatenation,
    alternation and bounded repetition.  Every pattern of the source is
    anchored with [^] and [$], so [test] is a match of the whole string. *)
Inductive regex :=
| Never
| Eps
| Cls (p : N → bool)
| Seq (a b : regex)
| Alt (a b : regex).

Definition Chr (c : N) : regex := Cls (N.eqb c).

(** A literal such as [09] or [\+639]. *)
Fixpoint Str (w : Js.str) : regex :=
  match w with
  | [] => Eps
  | c :: w' => Seq (Chr c) (Str w')
  end.

(** [a?] *)
Definition Opt (a : regex) : regex := Alt a Eps.

(** [a{k}] *)
Fixpoint Times (k : nat) (a : regex) : regex :=
  match k with
  | O => Eps
  | S k' => Seq a (Times k' a)
  end.

(** [a{0,k}] *)
Fixpoint Upto (k : nat) (a : regex) : regex :=
  match k with
  | O => Eps
  | S k' => Opt (Seq a (Upto k' a))
  end.

(** [a{m,n}] *)
Definition Rep (m n : nat) (a : regex) : regex :=
  Seq (Times m a) (Upto (n - m) a).

Fixpoint nullable (r : regex) : bool :=
  match r with
  | Never => false
  | Eps => true
  | Cls _ => false
  | Seq a b => nullable a && nullable b
  | Alt a b => nullable a || nullable b
  end.

Fixpoint deriv (c : N) (r : regex) : regex :=
  match r with
  | Never => Never
  | Eps => Never
  | Cls p => if p c then Eps else Never
  | Seq a b =>
      if nullable a then Alt (Seq (deriv c a) b) (deriv c b)
      else Seq (deriv c a) b
  | Alt a b => Alt (deriv c a) (deriv c b)
  end.

(** [/^r$/.test(s)] *)
Fixpoint test (r : regex) (s : Js.str) : bool :=
  match s with
  | [] => nullable r
  | c :: s' => test (deriv c r) s'
  end.

(** The language of a pattern, the specification of [test]. *)
Fixpoint lang (r : regex) (s : Js.str) : Prop :=
  match r with
  | Never => False
  | Eps => s = []
  | Cls p => ∃ c, s = [c] ∧ p c = true
  | Seq a b => ∃ s1 s2, s = s1 ++ s2 ∧ lang a s1 ∧ lang b s2
  | Alt a b => lang a s ∨ lang b s
  end.

End Re.

(** ** What both servers share: queries, JSON bodies, responses *)

Module Http.

(** The values that occur in the response bodies and log lines: [true],
    and values handed on as they are. *)
Inductive json :=
| JBool (b : bool)
| JValue (v : Js.value).

Definition JString (s : Js.str) : json := JValue (Js.VStr s).

(** A JSON object, with its fields in the order they are written. *)
Definition object := list (string * json).

Record response := Response { status : Z; body : object }.

(** [res.status(c).json({ error: msg })] *)
Definition error_response (c : Z) (msg : Js.str) : response :=
  Response c [("error"%string, JString msg)].

Definition fields (o : object) : list string := map fst o.

(** [req.query]: each of the three parameters is a value or is absent. *)
Record query := Query {
  phone : option Js.value;
  sender : option Js.value;
  text : option Js.value
}.

(** [!v] is false exactly for a present value other than the empty
    string. *)
Definition present (v : option Js.value) : option Js.value :=
  match v with
  | Some x => if Js.truthy x then Some x else None
  | None => None
  end.

Definition missing_parameters : response :=
  error_response 400 (Js.lit "Missing required parameters: phone, sender, text").

Definition message_too_long : response :=
  error_response 400 (Js.lit "Message too long (max 160 characters)").

End Http.

(** ** The regional server: Philippine numbers, cooldown, Twilio *)

Module Regional.
Import Http.

(** [/^(\+639|09)\d{9}$/] *)
Definition phRegex : Re.regex :=
  Re.Seq (Re.Alt (Re.Str (Js.lit "+639")) (Re.Str (Js.lit "09")))
         (Re.Times 9 (Re.Cls Js.is_digit)).

(** The function on a string.  On an array or an object its first line,
    [phone.replace(...)], throws; the handler below has that case. *)
Definition isValidPhilippinePhone (phone : Js.str) : bool :=
  let cleanPhone := Js.strip_space_hyphen phone in
  Re.test phRegex cleanPhone.

(** [phone.replace(/^09/, '+639')], applied by the handler to the string it
    received (not to the cleaned copy the validator tested). *)
Definition to_international (phone : Js.str) : Js.str :=
  Js.replace_prefix (Js.lit "09") (Js.lit "+639") phone.

(** Validation followed by the rewrite: the destination the handler goes
    on with, or nothing when the number is refused. *)
Definition normalize (phone : Js.str) : option Js.str :=
  if isValidPhilippinePhone phone then Some (to_international phone) else None.

Definition invalid_phone : response :=
  error_response 400
    (Js.lit "Invalid Philippine phone number format. Use 09XXXXXXXXX or +639XXXXXXXXX").

Definition sender_too_long : response :=
  error_response 400 (Js.lit "Sender name too long (max 11 characters)").

(** *** The cooldown map: destination to last reservation time *)

Definition cooldown_ms : Z := 10000.
Definition retention_ms : Z := 3600000.

(** [lastSent && (now - lastSent) < 10000], and the seconds left when it
    holds: [Math.ceil((10000 - (now - lastSent)) / 1000)]. *)
Definition cooling (cooldown : gmap Js.str Z) (phone : Js.str) (now : Z)
  : option Z :=
  match cooldown !! phone with
  | Some lastSent =>
      if Js.truthy_num lastSent && (now - lastSent <? cooldown_ms)
      then Some (Js.ceil_div (cooldown_ms - (now - lastSent)) 1000)
      else None
  | None => None
  end.

Inductive verdict :=
| Allowed
| Denied (remainingSeconds : Z).

(** The check of the handler followed by its [cooldown.set(phone, now)];
    nothing of the handler runs between the two. *)
Definition checkAndReserve (cooldown : gmap Js.str Z) (phone : Js.str) (now : Z)
  : gmap Js.str Z * verdict :=
  match cooling cooldown phone now with
  | Some remainingTime => (cooldown, Denied remainingTime)
  | None => (<[phone := now]> cooldown, Allowed)
  end.

(** [cooldown.delete(phone)] *)
Definition rollback (cooldown : gmap Js.str Z) (phone : Js.str)
  : gmap Js.str Z :=
  delete phone cooldown.

(** The body of the [setInterval] callback: every entry is visited once and
    deleted when [now - timestamp > 3600000]. *)
Definition sweep (now : Z) (cooldown : gmap Js.str Z) : gmap Js.str Z :=
  map_fold
    (λ phone timestamp acc,
       if now - timestamp >? retention_ms then delete phone acc else acc)
    cooldown cooldown.

Definition cooldown_active (remainingTime : Z) : response :=
  error_response 429
    (Js.lit "Please wait " ++ Js.of_int remainingTime
     ++ Js.lit " seconds before sending another message to this number").

(** *** The provider *)

(** The argument of [twilioClient.messages.create]. *)
Record payload := Payload {
  p_body : Js.value;
  p_from : option Js.str;  (* process.env.TWILIO_PHONE_NUMBER *)
  p_to : Js.str
}.

(** What the [catch] block reads of the value thrown, by the provider call
    or by a later line of the [try] block: [error.code] when it is a number
    and [error.message] when it is a string. *)
Record provider_error := ProviderError {
  code : option Z;
  message : option Js.str
}.

Inductive outcome :=
| Sent (sid : Js.str)
| Failed (error : provider_error).

Definition code_is (error : provider_error) (n : Z) : bool :=
  match code error with
  | Some c => c =? n
  | None => false
  end.

(** The chain of tests in the [catch] block.  The last test calls
    [error.message.includes]; without a string [message] that call throws
    inside the [catch] block and no response is written. *)
Definition classify (error : provider_error) : option Js.str :=
  if code_is error 21211 then Some (Js.lit "Invalid phone number format")
  else if code_is error 21408 then
    Some (Js.lit "SMS is not available for this number/region")
  else if code_is error 21610 then Some (Js.lit "Phone number is blacklisted")
  else if code_is error 21614 then
    Some (Js.lit "Phone number is not SMS capable")
  else
    match message error with
    | Some m =>
        if Js.includes (Js.lit "Authentication Error") m
        then Some (Js.lit "SMS service configuration error")
        else Some (Js.lit "Failed to send SMS")
    | None => None
    end.


(** *** The handler of [GET /api/sms] *)

(** What leaves the process besides the response. *)
Inductive effect :=
| MessagesCreate (p : payload)
| ConsoleLog (entry : object)
| ConsoleError (error : provider_error).

(** The variables the code after the [await] still uses. *)
Record pending := Pending {
  k_phone : Js.str;
  k_sender : Js.value;
  k_text : Js.value
}.

(** The handler up to its [await]: it has responded, or the provider call is
    out and the rest waits for the provider, or it has thrown.  A throw
    outside the [try] block rejects the promise of the handler; the handler
    writes no response then, and what becomes of the request is up to
    Express and Node. *)
Inductive progress :=
| Responded (r : response)
| Awaiting (k : pending)
| Thrown.

(** The two readings of [new Date().toISOString()] after the [await]. *)
Record stamps := Stamps { at_log : Js.str; at_response : Js.str }.

Definition handler_begin (twilio_phone_number : option Js.str)
    (cooldown : gmap Js.str Z) (q : query) (now : Z)
  : gmap Js.str Z * list effect * progress :=
  match present (phone q), present (sender q), present (text q) with
  | Some (Js.VStr phone), Some sender, Some text =>
      if negb (isValidPhilippinePhone phone) then
        (cooldown, [], Responded invalid_phone)
      else
        let phone := to_international phone in
        if Js.length_exceeds text 160 then
          (cooldown, [], Responded message_too_long)
        else if Js.length_exceeds sender 11 then
          (cooldown, [], Responded sender_too_long)
        else
          match cooling cooldown phone now with
          | Some remainingTime =>
              (cooldown, [], Responded (cooldown_active remainingTime))
          | None =>
              (<[phone := now]> cooldown,
               [MessagesCreate (Payload text twilio_phone_number phone)],
               Awaiting (Pending phone sender text))
          end
  | Some _, Some _, Some _ =>
      (* phone.replace is not a function *)
      (cooldown, [], Thrown)
  | _, _, _ => (cooldown, [], Responded missing_parameters)
  end.

(** The checks of the handler that come before the cooldown check, on
    their own: the response of the check that fails, or the variables the
    handler holds when all of them pass, or nothing when the phone check
    throws. *)
Definition validate (q : query) : option (response + pending) :=
  match present (phone q), present (sender q), present (text q) with
  | Some (Js.VStr phone), Some sender, Some text =>
      if negb (isValidPhilippinePhone phone) then Some (inl invalid_phone)
      else
        let phone := to_international phone in
        if Js.length_exceeds text 160 then Some (inl message_too_long)
        else if Js.length_exceeds sender 11 then Some (inl sender_too_long)
        else Some (inr (Pending phone sender text))
  | Some _, Some _, Some _ => None
  | _, _, _ => Some (inl missing_parameters)
  end.

(** [text.substring(0, 50) + (text.length > 50 ? '...' : '')] *)
Definition log_excerpt (text : Js.str) : Js.str :=
  Js.substring0 50 text ++ (if Js.len text >? 50 then Js.lit "..." else []).

(** The [catch] block.  No response ([None]) is written when the block
    itself throws. *)
Definition caught (cooldown : gmap Js.str Z) (k : pending)
    (error : provider_error)
  : gmap Js.str Z * list effect * option response :=
  (rollback cooldown (k_phone k),
   [ConsoleError error],
   match classify error with
   | Some errorMessage => Some (error_response 500 errorMessage)
   | None => None
   end).

(** The TypeError of [text.substring(0, 50)] when [text] is an array or an
    object: it has no code, and its message (here in the wording of V8)
    does not mention an authentication error. *)
Definition substring_type_error : provider_error :=
  ProviderError None (Some (Js.lit "text.substring is not a function")).

(** Whether the rest of the handler ends in the [catch] block: when the
    provider call fails, and also when it succeeds for a text that is not a
    string, since the log line then throws inside the [try] block. *)
Definition ends_in_catch (k : pending) (o : outcome) : bool :=
  match o, k_text k with
  | Failed _, _ => true
  | Sent _, Js.VStr _ => false
  | Sent _, _ => true
  end.

(** The handler from the [await] on. *)
Definition handler_resume (cooldown : gmap Js.str Z) (k : pending)
    (o : outcome) (t : stamps)
  : gmap Js.str Z * list effect * option response :=
  match o with
  | Sent sid =>
      match k_text k with
      | Js.VStr text =>
          (cooldown,
           [ConsoleLog [("phone", JString (k_phone k));
                        ("sender", JValue (k_sender k));
                        ("text", JString (log_excerpt text));
                        ("messageId", JString sid);
                        ("timestamp", JString (at_log t))]%string],
           Some (Response 200
                   [("success", JBool true);
                    ("message", JString (Js.lit "SMS sent successfully!"));
                    ("messageId", JString sid);
                    ("recipient", JString (k_phone k));
                    ("sender", JValue (k_sender k));
                    ("timestamp", JString (at_response t))]%string))
      | _ => caught cooldown k substring_type_error
      end
  | Failed error => caught cooldown k error
  end.

(** *** The running server *)

(** Node runs each handler without interruption up to its [await] and again
    from the [await] to its end; between the two, other requests, other
    completions and the sweep timer may run.  The state of the server is the
    cooldown map and the sends whose provider call has not settled yet.
    A request that the rate limiter in front of the handler turns away never
    reaches the handler and is no event here.  A handler that throws before
    its [await] has changed nothing; the server is taken to go on. *)
Record system := System {
  store : gmap Js.str Z;
  inflight : list pending
}.

Inductive event :=
| Request (q : query) (now : Z)
| Settle (i : nat) (o : outcome) (t : stamps)
| Tick (now : Z).

Definition step (twilio_phone_number : option Js.str) (s : system) (ev : event)
  : system * option response :=
  match ev with
  | Request q now =>
      match handler_begin twilio_phone_number (store s) q now with
      | (cooldown, _, Responded r) => (System cooldown (inflight s), Some r)
      | (cooldown, _, Awaiting k) => (System cooldown (inflight s ++ [k]), None)
      | (cooldown, _, Thrown) => (System cooldown (inflight s), None)
      end
  | Settle i o t =>
      match inflight s !! i with
      | Some k =>
          let '(cooldown, _, r) := handler_resume (store s) k o t in
          (System cooldown (delete i (inflight s)), r)
      | None => (s, None)
      end
  | Tick now => (System (sweep now (store s)) (inflight s), None)
  end.

Fixpoint run (twilio_phone_number : option Js.str) (s : system)
    (evs : list event) : system * list (option response) :=
  match evs with
  | [] => (s, [])
  | ev :: evs' =>
      let '(s1, r) := step twilio_phone_number s ev in
      let '(s2, rs) := run twilio_phone_number s1 evs' in
      (s2, r :: rs)
  end.

(** A stretch of events that leaves a reservation for [phone] alone: no
    clock reading in it is later than [t'], and no send that ends in the
    [catch] block in it was for [phone]. *)
Definition leaves_alone (phone : Js.str) (t' : Z) (s : system) (ev : event)
  : Prop :=
  match ev with
  | Request _ now => now ≤ t'
  | Tick now => now ≤ t'
  | Settle i o _ =>
      ∀ k, inflight s !! i = Some k → ends_in_catch k o = true →
           k_phone k ≠ phone
  end.

Fixpoint undisturbed (twilio_phone_number : option Js.str) (phone : Js.str)
    (t' : Z) (s : system) (evs : list event) : Prop :=
  match evs with
  | [] => True
  | ev :: evs' =>
      leaves_alone phone t' s ev
      ∧ undisturbed twilio_phone_number phone t'
          (step twilio_phone_number s ev).1 evs'
  end.

(** Whether a request arriving in state [s] at time [now] gets past the
    cooldown check, so that its provider call is issued. *)
Definition admitted (twilio_phone_number : option Js.str) (s : system)
    (q : query) (now : Z) : bool :=
  match handler_begin twilio_phone_number (store s) q now with
  | (_, _, Awaiting _) => true
  | (_, _, Responded _) => false
  | (_, _, Thrown) => false
  end.

End Regional.

(** ** The generic server ([server.js]): loose validation, simulated send *)

Module Generic.
Import Http.

(** [/^\+?[1-9]\d{1,14}$/] *)
Definition phoneRegex : Re.regex :=
  Re.Seq (Re.Opt (Re.Chr 43))
         (Re.Seq (Re.Cls Js.is_digit19) (Re.Rep 1 14 (Re.Cls Js.is_digit))).

(** [phoneRegex.test(phone.replace(/\s/g, ''))] *)
Definition phone_ok (phone : Js.str) : bool :=
  Re.test phoneRegex (Js.strip_space phone).

Definition invalid_phone : response :=
  error_response 400 (Js.lit "Invalid phone number format").

Inductive effect :=
| SetTimeout (ms : Z)
| ConsoleLog (entry : object)
| ConsoleError (error_message : Js.str).

(** A run of the [try] block: what it did, and either the value it ended
    with or the message of the error it threw. *)
Definition attempt (A : Type) : Type := list effect * (Js.str + A).

#[local] Instance attempt_ret : MRet attempt := λ A a, ([], inr a).

#[local] Instance attempt_bind : MBind attempt := λ A B f m,
  match m with
  | (done, inl error) => (done, inl error)
  | (done, inr a) => let '(more, r) := f a in (done ++ more, r)
  end.

(** [await new Promise(resolve => setTimeout(resolve, 1000))]: the promise
    is resolved by the timer and is never rejected. *)
Definition simulated_delay : attempt unit := ([SetTimeout 1000], inr ()).

Definition console_log (entry : object) : attempt unit :=
  ([ConsoleLog entry], inr ()).

(** The readings the handler takes from its environment: the two
    [new Date().toISOString()] and [Math.random().toString(36)]. *)
Record readings := Readings {
  at_log : Js.str;
  at_response : Js.str;
  random36 : Js.str
}.

(** ['msg_' + Math.random().toString(36).substr(2, 9)] *)
Definition message_id (e : readings) : Js.str :=
  Js.lit "msg_" ++ Js.substr 2 9 (random36 e).

(** The [try] block.  The Twilio call of the source is inside a comment;
    what runs is the delay, the log line and the response. *)
Definition try_block (phone sender text : Js.value) (e : readings)
  : attempt response :=
  simulated_delay ;;
  console_log [("phone", JValue phone); ("sender", JValue sender);
               ("text", JValue text);
               ("timestamp", JString (at_log e))]%string ;;
  mret (Response 200
         [("success", JBool true);
          ("message", JString (Js.lit "SMS sent successfully"));
          ("messageId", JString (message_id e));
          ("timestamp", JString (at_response e))]%string).

(** The [catch] block. *)
Definition catch_block (error_message : Js.str) : list effect * response :=
  ([ConsoleError error_message],
   error_response 500 (Js.lit "Failed to send SMS: " ++ error_message)).

(** The handler: what it does besides responding, and its response, or no
    response when it throws outside the [try] block (see
    [Regional.Thrown]). *)
Definition handler (q : query) (e : readings)
  : list effect * option response :=
  match present (phone q), present (sender q), present (text q) with
  | Some (Js.VStr phone), Some sender, Some text =>
      if negb (phone_ok phone) then ([], Some invalid_phone)
      else if Js.length_exceeds text 160 then ([], Some message_too_long)
      else
        match try_block (Js.VStr phone) sender text e with
        | (done, inr r) => (done, Some r)
        | (done, inl error_message) =>
            let '(more, r) := catch_block error_message in
            (done ++ more, Some r)
        end
  | Some _, Some _, Some _ =>
      (* phone.replace is not a function *)
      ([], None)
  | _, _, _ => ([], Some missing_parameters)
  end.

End Generic.

(** ** Sample data for the examples *)

Module Sample.

Definition number : Js.str := Js.lit "+639171234567".

(** [GET /api/sms?phone=09171234567&sender=TEST&text=Hello] *)
Definition request : Http.query :=
  Http.Query (Some (Js.VStr (Js.lit "09171234567")))
    (Some (Js.VStr (Js.lit "TEST"))) (Some (Js.VStr (Js.lit "Hello"))).

Definition waiting : Regional.pending :=
  Regional.Pending number (Js.VStr (Js.lit "TEST")) (Js.VStr (Js.lit "Hello")).

(** [GET /api/sms?phone=09171234567&sender=TEST&text=Hel&text=lo]: the text
    arrives as an array of two strings. *)
Definition request_with_array : Http.query :=
  Http.Query (Some (Js.VStr (Js.lit "09171234567")))
    (Some (Js.VStr (Js.lit "TEST")))
    (Some (Js.VArr [Js.VStr (Js.lit "Hel"); Js.VStr (Js.lit "lo")])).

Definition waiting_with_array : Regional.pending :=
  Regional.Pending number (Js.VStr (Js.lit "TEST"))
    (Js.VArr [Js.VStr (Js.lit "Hel"); Js.VStr (Js.lit "lo")]).

(** The provider accepted the message. *)
Definition delivered : Regional.outcome := Regional.Sent (Js.lit "SM1").

Definition stamps : Regional.stamps :=
  Regional.Stamps (Js.lit "2023-11-14T22:13:25.000Z")
    (Js.lit "2023-11-14T22:13:25.001Z").

(** A provider call that ends in a network timeout. *)
Definition timed_out : Regional.outcome :=
  Regional.Failed
    (Regional.ProviderError None (Some (Js.lit "connect ETIMEDOUT"))).

(** A provider rejection that carries Twilio's code 21610. *)
Definition blacklisted : Regional.provider_error :=
  Regional.ProviderError (Some 21610)
    (Some (Js.lit "Attempt to send to unsubscribed recipient")).

(** [GET /api/sms?phone=%2B14155552671&sender=TEST&text=Hello] *)
Definition generic_request : Http.query :=
  Http.Query (Some (Js.VStr (Js.lit "+14155552671")))
    (Some (Js.VStr (Js.lit "TEST"))) (Some (Js.VStr (Js.lit "Hello"))).

Definition readings : Generic.readings :=
  Generic.Readings (Js.lit "2024-01-01T00:00:00.000Z")
    (Js.lit "2024-01-01T00:00:00.001Z") (Js.lit "0.4fzyo82mvyr").

End Sample.

(** ** Predicates the invariants are stated with *)

Module Inv.

(** The characters a number may be written with: digits, the plus sign,
    blanks and the hyphen. *)
Definition dialling_char (c : N) : bool :=
  Js.is_digit c || (c =? 43)%N || Js.is_space c || (c =? Js.hyphen)%N.

(** A destination as the regional handler forwards it: it passes the
    validator and does not begin with the two characters [09]. *)
Definition forwardable (phone : Js.str) : bool :=
  match Js.after_prefix (Js.lit "09") phone with
  | Some _ => false
  | None => Regional.isValidPhilippinePhone phone
  end.

(** What the handler holds when it calls the provider: a forwardable
    destination, and a text and a sender label that are truthy and whose
    [length] does not compare greater than 160 and 11. *)
Definition sendable (k : Regional.pending) : Prop :=
  forwardable (Regional.k_phone k) = true
  ∧ Js.truthy (Regional.k_text k) = true
  ∧ Js.length_exceeds (Regional.k_text k) 160 = false
  ∧ Js.truthy (Regional.k_sender k) = true
  ∧ Js.length_exceeds (Regional.k_sender k) 11 = false.

(** Every destination in the cooldown map is forwardable, and so is every
    send in flight. *)
Definition well_kept (s : Regional.system) : Prop :=
  map_Forall (λ phone _, forwardable phone = true) (Regional.store s)
  ∧ Forall sendable (Regional.inflight s).

(** The Twilio error codes the [catch] block tests for. *)
Definition known_codes : list Z := [21211; 21408; 21610; 21614].

Definition unlisted (error : Regional.provider_error) : Prop :=
  ∀ c, Regional.code error = Some c → c ∉ known_codes.

(** A parameter that [!v] takes for missing: absent, or the empty string. *)
Definition blank (v : option Js.value) : Prop :=
  v = None ∨ v = Some (Js.VStr []).

End Inv.

(** ** Facts about the matcher *)

Section Matcher.
Import Re.

Lemma nullable_lang r : nullable r = true ↔ lang r [].
Proof.
  induction r as [| |p|a IHa b IHb|a IHa b IHb]; simpl.
  - split; [discriminate|tauto].
  - tauto.
  - split; [discriminate|]. intros (c & Hc & _). discriminate.
  - rewrite andb_true_iff, IHa, IHb. split.
    + intros [Ha Hb]. exists [], []. auto.
    + intros (s1 & s2 & Hs & Ha & Hb).
      symmetry in Hs. apply app_eq_nil in Hs as [-> ->]. auto.
  - rewrite orb_true_iff, IHa, IHb. tauto.
Qed.

Lemma deriv_lang c r s : lang (deriv c r) s ↔ lang r (c :: s).
Proof.
  revert s. induction r as [| |p|a IHa b IHb|a IHa b IHb]; intros s; simpl.
  - tauto.
  - split; [tauto|discriminate].
  - destruct (p c) eqn:Hp; simpl.
    + split.
      * intros ->. eauto.
      * intros (c' & Hc & _). by inversion Hc.
    + split; [tauto|]. intros (c' & Hc & Hp'). inversion Hc; subst. congruence.
  - assert (Hcons : (∃ s1 s2, s = s1 ++ s2 ∧ lang (deriv c a) s1 ∧ lang b s2)
                    ↔ ∃ s1 s2, c :: s = s1 ++ s2 ∧ s1 ≠ [] ∧ lang a s1 ∧ lang b s2).
    { split.
      - intros (s1 & s2 & -> & Ha & Hb). exists (c :: s1), s2.
        rewrite <- IHa. auto.
      - intros (s1 & s2 & Hs & Hne & Ha & Hb). destruct s1 as [|c' s1]; [done|].
        inversion Hs; subst. exists s1, s2. rewrite IHa. auto. }
    destruct (nullable a) eqn:Hn; simpl; rewrite ?Hcons.
    + rewrite IHb. apply nullable_lang in Hn. split.
      * intros [(s1 & s2 & Hs & _ & Ha & Hb)|Hb]; [by eauto|].
        exists [], (c :: s). auto.
      * intros (s1 & s2 & Hs & Ha & Hb). destruct s1 as [|c' s1].
        -- right. simpl in Hs. by subst.
        -- left. exists (c' :: s1), s2. auto.
    + split.
      * intros (s1 & s2 & Hs & _ & Ha & Hb). eauto.
      * intros (s1 & s2 & Hs & Ha & Hb). exists s1, s2.
        split_and!; try done. intros ->.
        apply nullable_lang in Ha. congruence.
  - by rewrite IHa, IHb.
Qed.

(** The matcher decides the language of the pattern. *)
Lemma test_lang r s : test r s = true ↔ lang r s.
Proof.
  revert r. induction s as [|c s IH]; intros r; simpl.
  - apply nullable_lang.
  - by rewrite IH, deriv_lang.
Qed.

Lemma lang_Chr c s : lang (Chr c) s ↔ s = [c].
Proof.
  unfold Chr; simpl. split.
  - intros (c' & -> & Hc). apply N.eqb_eq in Hc. by subst.
  - intros ->. exists c. by rewrite N.eqb_refl.
Qed.

Lemma lang_Str w s : lang (Str w) s ↔ s = w.
Proof.
  revert s. induction w as [|c w IH]; intros s; [done|].
  change (lang (Str (c :: w)) s)
    with (∃ s1 s2, s = s1 ++ s2 ∧ lang (Chr c) s1 ∧ lang (Str w) s2).
  split.
  - intros (s1 & s2 & -> & Hc & Hw). apply lang_Chr in Hc. apply IH in Hw.
    by subst.
  - intros ->. exists [c], w. rewrite lang_Chr, IH. auto.
Qed.

Lemma lang_Times_Cls p k s :
  lang (Times k (Cls p)) s ↔ length s = k ∧ forallb p s = true.
Proof.
  revert s. induction k as [|k IH]; intros s; simpl.
  - split; [by intros ->|]. intros [Hl _]. by destruct s.
  - split.
    + intros (s1 & s2 & -> & (c & -> & Hc) & Hk). apply IH in Hk as [Hl Hp].
      simpl. rewrite Hc, Hp, Hl. auto.
    + intros [Hl Hp]. destruct s as [|c s]; [done|]. simpl in *.
      apply andb_true_iff in Hp as [Hc Hp].
      exists [c], s. split_and!; [done|by eauto|]. apply IH. auto with lia.
Qed.

Lemma lang_Upto_Cls p k s :
  lang (Upto k (Cls p)) s ↔ (length s ≤ k)%nat ∧ forallb p s = true.
Proof.
  revert s. induction k as [|k IH]; intros s; simpl.
  - split; [by intros ->|]. intros [Hl _]. destruct s; [done|simpl in Hl; lia].
  - split.
    + intros [(s1 & s2 & -> & (c & -> & Hc) & Hk)| ->]; [|simpl; auto with lia].
      apply IH in Hk as [Hl Hp]. simpl. rewrite Hc, Hp. auto with lia.
    + intros [Hl Hp]. destruct s as [|c s]; [by right|left]. simpl in *.
      apply andb_true_iff in Hp as [Hc Hp].
      exists [c], s. split_and!; [done|by eauto|]. apply IH. auto with lia.
Qed.

Lemma lang_Rep_Cls p m n s :
  (m ≤ n)%nat →
  lang (Rep m n (Cls p)) s ↔ (m ≤ length s ≤ n)%nat ∧ forallb p s = true.
Proof.
  intros Hmn. unfold Rep; simpl. split.
  - intros (s1 & s2 & -> & H1 & H2).
    apply lang_Times_Cls in H1 as [Hl1 Hp1].
    apply lang_Upto_Cls in H2 as [Hl2 Hp2].
    rewrite length_app, forallb_app, Hp1, Hp2. auto with lia.
  - intros [Hl Hp]. exists (take m s), (drop m s).
    rewrite <- (take_drop m s) in Hp. rewrite forallb_app in Hp.
    apply andb_true_iff in Hp as [Hp1 Hp2].
    rewrite take_drop, lang_Times_Cls, lang_Upto_Cls, length_take, length_drop.
    auto with lia.
Qed.

End Matcher.

(** ** Strings and patterns: supporting facts *)

Section Strings.
Import Re.

Lemma after_prefix_Some p s r : Js.after_prefix p s = Some r ↔ s = p ++ r.
Proof.
  revert s. induction p as [|a p IH]; intros s; simpl.
  - split; congruence.
  - destruct s as [|b s]; [done|].
    destruct (N.eqb_spec a b) as [->|Hne].
    + rewrite IH. split; congruence.
    + split; [done|]. intros [=]. done.
Qed.

Lemma lang_Seq a b s :
  lang (Seq a b) s ↔ ∃ s1 s2, s = s1 ++ s2 ∧ lang a s1 ∧ lang b s2.
Proof. done. Qed.

Lemma lang_Alt a b s : lang (Alt a b) s ↔ lang a s ∨ lang b s.
Proof. done. Qed.

Lemma lang_Opt a s : lang (Opt a) s ↔ lang a s ∨ s = [].
Proof. done. Qed.

(** What [/^(\+639|09)\d{9}$/] accepts. *)
Lemma phRegex_spec s :
  test Regional.phRegex s = true ↔
  ∃ d, (s = Js.lit "+639" ++ d ∨ s = Js.lit "09" ++ d)
       ∧ length d = 9%nat ∧ forallb Js.is_digit d = true.
Proof.
  rewrite test_lang. unfold Regional.phRegex. rewrite lang_Seq. split.
  - intros (s1 & d & -> & Hpre & Hd). exists d.
    apply lang_Times_Cls in Hd. split; [|done].
    apply lang_Alt in Hpre as [H|H]; apply lang_Str in H; subst; auto.
  - intros (d & Hs & Hd). apply lang_Times_Cls in Hd.
    destruct Hs as [-> | ->].
    + exists (Js.lit "+639"), d. rewrite lang_Alt, !lang_Str. auto.
    + exists (Js.lit "09"), d. rewrite lang_Alt, !lang_Str. auto.
Qed.

(** What [/^\+?[1-9]\d{1,14}$/] accepts: an optional plus sign, then a
    digit that is not zero, then one to fourteen more digits. *)
Lemma phoneRegex_spec s :
  test Generic.phoneRegex s = true ↔
  ∃ sign c rest,
    s = sign ++ c :: rest ∧ (sign = [] ∨ sign = Js.lit "+")
    ∧ Js.is_digit19 c = true
    ∧ (1 ≤ length rest ≤ 14)%nat ∧ forallb Js.is_digit rest = true.
Proof.
  rewrite test_lang. unfold Generic.phoneRegex. rewrite lang_Seq. split.
  - intros (sign & s2 & -> & Hsign & Hbody).
    apply lang_Seq in Hbody as (s3 & rest & -> & (c & -> & Hc) & Hrest).
    apply lang_Rep_Cls in Hrest; [|lia].
    exists sign, c, rest. split_and!; try done; try tauto.
    apply lang_Opt in Hsign as [H| ->]; [|by left].
    apply lang_Chr in H. by right.
  - intros (sign & c & rest & -> & Hsign & Hc & Hl & Hd).
    exists sign, (c :: rest). split_and!; [done| |].
    + rewrite lang_Opt, lang_Chr. destruct Hsign as [-> | ->]; auto.
    + apply lang_Seq. exists [c], rest. split_and!; [done|by exists c|].
      apply lang_Rep_Cls; [lia|done].
Qed.

Lemma strip_space_hyphen_app s1 s2 :
  Js.strip_space_hyphen (s1 ++ s2)
  = Js.strip_space_hyphen s1 ++ Js.strip_space_hyphen s2.
Proof. apply filter_app. Qed.

End Strings.

(** ** The regional validator and its rewrite *)

Section RegionalNumbers.
Import Regional.

Lemma isValidPhilippinePhone_spec raw :
  isValidPhilippinePhone raw = true ↔
  ∃ d, (Js.strip_space_hyphen raw = Js.lit "+639" ++ d
        ∨ Js.strip_space_hyphen raw = Js.lit "09" ++ d)
       ∧ length d = 9%nat ∧ forallb Js.is_digit d = true.
Proof. apply phRegex_spec. Qed.

Lemma to_international_local rest :
  to_international (Js.lit "09" ++ rest) = Js.lit "+639" ++ rest.
Proof. done. Qed.

(** Only a string that begins with the two characters [09] is changed. *)
Lemma to_international_other raw :
  Js.after_prefix (Js.lit "09") raw = None → to_international raw = raw.
Proof. unfold to_international, Js.replace_prefix. by intros ->. Qed.

Lemma to_international_plus rest :
  to_international (Js.lit "+" ++ rest) = Js.lit "+" ++ rest.
Proof. done. Qed.

Lemma normalize_Some raw out :
  normalize raw = Some out ↔
  isValidPhilippinePhone raw = true ∧ out = to_international raw.
Proof.
  unfold normalize. destruct (isValidPhilippinePhone raw); split.
  - by intros [= <-].
  - by intros [_ ->].
  - done.
  - by intros [? _].
Qed.

(** The rewrite keeps a valid number valid: it exchanges one accepted
    prefix for the other and leaves the nine digits alone. *)
Lemma to_international_valid raw :
  isValidPhilippinePhone raw = true →
  isValidPhilippinePhone (to_international raw) = true.
Proof.
  intros Hv. unfold to_international, Js.replace_prefix.
  destruct (Js.after_prefix (Js.lit "09") raw) as [rest|] eqn:Hp; [|done].
  apply after_prefix_Some in Hp as ->.
  apply isValidPhilippinePhone_spec in Hv as (d & Hs & Hd).
  apply isValidPhilippinePhone_spec. exists d. split; [left|done].
  rewrite strip_space_hyphen_app in Hs |- *.
  change (Js.strip_space_hyphen (Js.lit "09")) with (Js.lit "09") in Hs.
  change (Js.strip_space_hyphen (Js.lit "+639")) with (Js.lit "+639").
  destruct Hs as [Hs|Hs]; [discriminate Hs|].
  f_equal. by apply (inj (app (Js.lit "09"))) in Hs.
Qed.

Lemma to_international_idemp raw :
  to_international (to_international raw) = to_international raw.
Proof.
  destruct (Js.after_prefix (Js.lit "09") raw) as [rest|] eqn:Hp.
  - apply after_prefix_Some in Hp as ->.
    rewrite to_international_local.
    apply (to_international_plus (Js.lit "639" ++ rest)).
  - rewrite (to_international_other raw Hp).
    exact (to_international_other raw Hp).
Qed.

End RegionalNumbers.

(** C3, as the code has it.  The regional validator accepts exactly the
    strings that, once blanks and hyphens are taken out, are [09] or [+639]
    followed by exactly nine digits, and refuses every other string.  For an
    accepted string that itself begins with [09] the handler goes on with
    [+639] followed by what came after that [09], separators included; an
    accepted string that begins with [+] is kept as it is; and an accepted
    string without any blank or hyphen yields [+639] and its nine digits. *)
Theorem C3_regional_normalizer (raw : Js.str) :
  (Regional.isValidPhilippinePhone raw = true ↔
     ∃ d, (Js.strip_space_hyphen raw = Js.lit "+639" ++ d
           ∨ Js.strip_space_hyphen raw = Js.lit "09" ++ d)
          ∧ length d = 9%nat ∧ forallb Js.is_digit d = true)
  ∧ (Regional.isValidPhilippinePhone raw = false →
       Regional.normalize raw = None)
  ∧ (Regional.isValidPhilippinePhone raw = true →
       (∀ rest, raw = Js.lit "09" ++ rest →
                Regional.normalize raw = Some (Js.lit "+639" ++ rest))
       ∧ (∀ rest, raw = Js.lit "+" ++ rest → Regional.normalize raw = Some raw)
       ∧ (Js.strip_space_hyphen raw = raw →
            ∃ d, Regional.normalize raw = Some (Js.lit "+639" ++ d)
                 ∧ length d = 9%nat ∧ forallb Js.is_digit d = true)).
Proof.
  split; [apply isValidPhilippinePhone_spec|]. split.
  - unfold Regional.normalize. by intros ->.
  - intros Hv. unfold Regional.normalize. rewrite Hv. split_and!.
    + intros rest ->. by rewrite to_international_local.
    + intros rest ->. by rewrite to_international_plus.
    + intros Hclean. apply isValidPhilippinePhone_spec in Hv as (d & Hs & Hd).
      rewrite Hclean in Hs. exists d. split; [|done].
      destruct Hs as [-> | ->]; reflexivity.
Qed.

Lemma C3_regional_normalizer_witness :
  Regional.normalize (Js.lit "09171234567") = Some (Js.lit "+639171234567").
Proof.
  destruct (C3_regional_normalizer (Js.lit "09171234567")) as (_ & _ & H).
  destruct (H eq_refl) as (Hlocal & _).
  exact (Hlocal (Js.lit "171234567") eq_refl).
Defined.

(** C3, as the claim words it, fails on [0917-123-4567]: the number is
    accepted, and the form the handler goes on with still has its hyphens. *)
Lemma C3_separators_kept :
  Regional.normalize (Js.lit "0917-123-4567")
  = Some (Js.lit "+63917-123-4567")
  ∧ Js.strip_space_hyphen (Js.lit "+63917-123-4567")
    ≠ Js.lit "+63917-123-4567".
Proof. split; [done|]. intros H. vm_compute in H. discriminate H. Qed.

(** C7.  Normalization is idempotent on accepted destinations: the form the
    handler goes on with is itself accepted, and normalizing it again gives
    it back unchanged. *)
Theorem C7_normalize_idempotent (raw out : Js.str) :
  Regional.normalize raw = Some out → Regional.normalize out = Some out.
Proof.
  rewrite !normalize_Some. intros [Hv ->]. split.
  - by apply to_international_valid.
  - symmetry. apply to_international_idemp.
Qed.

Lemma C7_normalize_idempotent_witness :
  Regional.normalize (Js.lit "+63917-123-4567")
  = Some (Js.lit "+63917-123-4567").
Proof.
  apply (C7_normalize_idempotent (Js.lit "0917-123-4567")). reflexivity.
Defined.

(** ** The generic server *)

Section GenericServer.
Import Http Generic.

(** The [try] block always runs to its end: none of its steps throws. *)
Lemma try_block_completes (phone sender text : Js.value) (e : readings) :
  try_block phone sender text e
  = ([SetTimeout 1000;
      ConsoleLog [("phone", JValue phone); ("sender", JValue sender);
                  ("text", JValue text);
                  ("timestamp", JString (at_log e))]%string],
     inr (Response 200
            [("success", JBool true);
             ("message", JString (Js.lit "SMS sent successfully"));
             ("messageId", JString (message_id e));
             ("timestamp", JString (at_response e))]%string)).
Proof. done. Qed.

(** The five ways the handler ends; the [catch] block is none of them. *)
Lemma handler_cases (q : query) (e : readings) :
  handler q e = ([], Some missing_parameters)
  ∨ handler q e = ([], Some invalid_phone)
  ∨ handler q e = ([], Some message_too_long)
  ∨ handler q e = ([], None)
  ∨ ∃ phone sender text,
      present (Http.phone q) = Some (Js.VStr phone)
      ∧ present (Http.sender q) = Some sender
      ∧ present (Http.text q) = Some text
      ∧ handler q e
        = ([SetTimeout 1000;
            ConsoleLog [("phone", JString phone); ("sender", JValue sender);
                        ("text", JValue text);
                        ("timestamp", JString (at_log e))]%string],
           Some (Response 200
                   [("success", JBool true);
                    ("message", JString (Js.lit "SMS sent successfully"));
                    ("messageId", JString (message_id e));
                    ("timestamp", JString (at_response e))]%string)).
Proof.
  unfold handler.
  destruct (present (Http.phone q)) as [phone|]; [|by left].
  destruct (present (Http.sender q)) as [sender|];
    [|by destruct phone; left].
  destruct (present (Http.text q)) as [text|];
    [|by destruct phone; left].
  destruct phone as [phone|items|fs x]; [|by do 3 right; left..].
  destruct (phone_ok phone); [|by right; left].
  destruct (Js.length_exceeds text 160); [by right; right; left|].
  do 4 right. exists phone, sender, text.
  by rewrite try_block_completes.
Qed.

Lemma handler_status (q : query) (e : readings) (r : response) :
  (handler q e).2 = Some r → status r = 200 ∨ status r = 400.
Proof.
  destruct (handler_cases q e)
    as [H|[H|[H|[H|(p & s & t & _ & _ & _ & H)]]]];
    rewrite H; simpl; intros [= <-]; auto.
Qed.

Lemma phone_ok_spec phone :
  phone_ok phone = true ↔
  ∃ sign digits,
    Js.strip_space phone = sign ++ digits
    ∧ (sign = [] ∨ sign = Js.lit "+")
    ∧ (2 ≤ length digits ≤ 15)%nat
    ∧ forallb Js.is_digit digits = true
    ∧ head digits ≠ Some 48%N.
Proof.
  unfold phone_ok. rewrite phoneRegex_spec. split.
  - intros (sign & c & rest & Hs & Hsign & Hc & Hl & Hd).
    exists sign, (c :: rest). split_and!; [done|done|simpl; lia|simpl; lia| |].
    + simpl. rewrite Hd, andb_true_r.
      unfold Js.is_digit19, Js.is_digit in *.
      apply andb_true_iff in Hc as [H1 H2]. rewrite H2, andb_true_r.
      apply N.leb_le in H1. apply N.leb_le. lia.
    + simpl. intros [= ->]. done.
  - intros (sign & digits & Hs & Hsign & Hl & Hd & Hh).
    destruct digits as [|c rest]; [simpl in Hl; lia|].
    simpl in Hl, Hd, Hh. apply andb_true_iff in Hd as [Hc Hd].
    exists sign, c, rest. split_and!; [done|done| |lia|lia|done].
    unfold Js.is_digit19, Js.is_digit in *.
    apply andb_true_iff in Hc as [H1 H2]. rewrite H2, andb_true_r.
    apply N.leb_le in H1. apply N.leb_le.
    assert (c ≠ 48%N) by congruence. lia.
Qed.

End GenericServer.

(** C8, as the code has it.  For a request with its three parameters and a
    string for a phone, the generic validator accepts exactly the
    destinations that, once blanks are taken out (hyphens are not), are an
    optional plus sign followed by two to fifteen digits of which the first
    is not zero; every other destination is answered with status 400 and the
    invalid-format error. *)
Theorem C8_generic_validator (q : Http.query) (e : Generic.readings)
    (phone : Js.str) (sender text : Js.value) :
  Http.present (Http.phone q) = Some (Js.VStr phone) →
  Http.present (Http.sender q) = Some sender →
  Http.present (Http.text q) = Some text →
  (Generic.phone_ok phone = true ↔
     ∃ sign digits,
       Js.strip_space phone = sign ++ digits
       ∧ (sign = [] ∨ sign = Js.lit "+")
       ∧ (2 ≤ length digits ≤ 15)%nat
       ∧ forallb Js.is_digit digits = true
       ∧ head digits ≠ Some 48%N)
  ∧ (Generic.phone_ok phone = false ↔
       Generic.handler q e
       = ([],
          Some (Http.error_response 400 (Js.lit "Invalid phone number format")))).
Proof.
  intros Hp Hs Ht. split; [apply phone_ok_spec|].
  unfold Generic.handler. rewrite Hp, Hs, Ht.
  destruct (Generic.phone_ok phone); simpl.
  - split; [done|]. destruct (Js.length_exceeds text 160); [|done].
    intros H. vm_compute in H. discriminate H.
  - done.
Qed.

Lemma C8_generic_validator_witness :
  Generic.phone_ok (Js.lit "12-345") = false ↔
  Generic.handler
    (Http.Query (Some (Js.VStr (Js.lit "12-345")))
       (Some (Js.VStr (Js.lit "TEST"))) (Some (Js.VStr (Js.lit "Hello"))))
    (Generic.Readings (Js.lit "2024-01-01T00:00:00.000Z")
       (Js.lit "2024-01-01T00:00:00.001Z") (Js.lit "0.4fzyo82mvyr"))
  = ([], Some (Http.error_response 400 (Js.lit "Invalid phone number format"))).
Proof.
  apply (C8_generic_validator _ _ (Js.lit "12-345") (Js.VStr (Js.lit "TEST"))
           (Js.VStr (Js.lit "Hello"))); reflexivity.
Defined.

(** C8, as the claim words it, fails on [12-345]: with its hyphen taken out
    the string matches the pattern, yet the generic server, which takes out
    blanks only, refuses it. *)
Lemma C8_hyphen_refused :
  Re.test Generic.phoneRegex (Js.strip_space_hyphen (Js.lit "12-345")) = true
  ∧ Generic.phone_ok (Js.lit "12-345") = false
  ∧ Generic.handler
      (Http.Query (Some (Js.VStr (Js.lit "12-345")))
         (Some (Js.VStr (Js.lit "TEST"))) (Some (Js.VStr (Js.lit "Hello"))))
      (Generic.Readings (Js.lit "2024-01-01T00:00:00.000Z")
         (Js.lit "2024-01-01T00:00:00.001Z") (Js.lit "0.4fzyo82mvyr"))
    = ([],
       Some (Http.error_response 400 (Js.lit "Invalid phone number format"))).
Proof. by vm_compute. Qed.

(** C10.  In the generic server a request that passes the three checks is
    always answered 200 with a message id made here, [msg_] followed by at
    most nine characters taken from a random number; what the handler does
    on the way is wait on a timer and write a log line, and no call to a
    provider is among it.  No request at all is answered 500: the [catch]
    block is never entered. *)
Theorem C10_generic_simulated_send (q : Http.query) (e : Generic.readings)
    (phone : Js.str) (sender text : Js.value) :
  Http.present (Http.phone q) = Some (Js.VStr phone) →
  Http.present (Http.sender q) = Some sender →
  Http.present (Http.text q) = Some text →
  Generic.phone_ok phone = true →
  Js.length_exceeds text 160 = false →
  Generic.handler q e
  = ([Generic.SetTimeout 1000;
      Generic.ConsoleLog
        [("phone", Http.JString phone); ("sender", Http.JValue sender);
         ("text", Http.JValue text);
         ("timestamp", Http.JString (Generic.at_log e))]%string],
     Some (Http.Response 200
             [("success", Http.JBool true);
              ("message", Http.JString (Js.lit "SMS sent successfully"));
              ("messageId", Http.JString (Generic.message_id e));
              ("timestamp", Http.JString (Generic.at_response e))]%string))
  ∧ (∃ suffix, Generic.message_id e = Js.lit "msg_" ++ suffix
               ∧ suffix = Js.substr 2 9 (Generic.random36 e)
               ∧ (length suffix ≤ 9)%nat)
  ∧ ∀ q' e', (∀ r, (Generic.handler q' e').2 = Some r → Http.status r ≠ 500)
             ∧ ∀ m, Generic.ConsoleError m ∉ (Generic.handler q' e').1.
Proof.
  intros Hp Hs Ht Hok Hlen. split_and!.
  - unfold Generic.handler. by rewrite Hp, Hs, Ht, Hok, Hlen.
  - eexists. split_and!; [done|done|].
    unfold Js.substr. rewrite length_take. lia.
  - intros q' e'. split.
    + intros r Hr. destruct (handler_status q' e' r Hr) as [-> | ->]; lia.
    + intros m.
      destruct (handler_cases q' e')
        as [H|[H|[H|[H|(p' & s' & t' & _ & _ & _ & H)]]]]; rewrite H; simpl;
        intros Hin;
        repeat (apply elem_of_cons in Hin as [Hin|Hin]; [discriminate Hin|]);
        by apply elem_of_nil in Hin.
Qed.

Lemma C10_generic_simulated_send_witness :
  Generic.handler
    (Http.Query (Some (Js.VStr (Js.lit "+14155552671")))
       (Some (Js.VStr (Js.lit "TEST"))) (Some (Js.VStr (Js.lit "Hello"))))
    (Generic.Readings (Js.lit "2024-01-01T00:00:00.000Z")
       (Js.lit "2024-01-01T00:00:00.001Z") (Js.lit "0.4fzyo82mvyr"))
  = ([Generic.SetTimeout 1000;
      Generic.ConsoleLog
        [("phone", Http.JString (Js.lit "+14155552671"));
         ("sender", Http.JString (Js.lit "TEST"));
         ("text", Http.JString (Js.lit "Hello"));
         ("timestamp", Http.JString (Js.lit "2024-01-01T00:00:00.000Z"))]%string],
     Some (Http.Response 200
             [("success", Http.JBool true);
              ("message", Http.JString (Js.lit "SMS sent successfully"));
              ("messageId", Http.JString (Js.lit "msg_4fzyo82mv"));
              ("timestamp",
               Http.JString (Js.lit "2024-01-01T00:00:00.001Z"))]%string)).
Proof.
  refine (proj1 (C10_generic_simulated_send _ _ (Js.lit "+14155552671")
                   (Js.VStr (Js.lit "TEST")) (Js.VStr (Js.lit "Hello"))
                   _ _ _ _ _));
    reflexivity.
Defined.


(** ** The cooldown map *)

Section Cooldown.
Import Http Regional.

(** [ceil_div] is the ceiling of the quotient. *)
Lemma ceil_div_spec a b :
  0 < b → b * (Js.ceil_div a b - 1) < a ≤ b * Js.ceil_div a b.
Proof.
  intros Hb. unfold Js.ceil_div.
  pose proof (Z.div_mod (- a) b) as Hdm.
  pose proof (Z.mod_pos_bound (- a) b Hb) as Hm. lia.
Qed.

Lemma ceil_div_unique a b r :
  0 < b → b * (r - 1) < a ≤ b * r → Js.ceil_div a b = r.
Proof.
  intros Hb Hr. pose proof (ceil_div_spec a b Hb) as Hc. nia.
Qed.

(** The check denies exactly when the entry is a non-zero time less than
    ten seconds before [now]. *)
Lemma cooling_Some (cooldown : gmap Js.str Z) phone now lastSent :
  cooldown !! phone = Some lastSent → lastSent ≠ 0 →
  now - lastSent < 10000 →
  cooling cooldown phone now
  = Some (Js.ceil_div (10000 - (now - lastSent)) 1000).
Proof.
  intros Hl Hnz Hlt. unfold cooling, Js.truthy_num, cooldown_ms. rewrite Hl.
  destruct (Z.eqb_spec lastSent 0) as [?|_]; [done|].
  destruct (Z.ltb_spec (now - lastSent) 10000) as [_|?]; [done|lia].
Qed.

Lemma cooling_absent (cooldown : gmap Js.str Z) phone now :
  cooldown !! phone = None → cooling cooldown phone now = None.
Proof. unfold cooling. by intros ->. Qed.

Lemma cooling_expired (cooldown : gmap Js.str Z) phone now lastSent :
  cooldown !! phone = Some lastSent → 10000 ≤ now - lastSent →
  cooling cooldown phone now = None.
Proof.
  intros Hl Hge. unfold cooling, cooldown_ms. rewrite Hl.
  destruct (Z.ltb_spec (now - lastSent) 10000) as [?|_]; [lia|].
  by rewrite andb_false_r.
Qed.

(** The handler is its validation followed by check-and-reserve. *)
Lemma handler_begin_validate (origin : option Js.str)
    (cooldown : gmap Js.str Z) (q : query) (now : Z) :
  handler_begin origin cooldown q now
  = match validate q with
    | Some (inl r) => (cooldown, [], Responded r)
    | Some (inr k) =>
        match cooling cooldown (k_phone k) now with
        | Some remainingTime =>
            (cooldown, [], Responded (cooldown_active remainingTime))
        | None =>
            (<[k_phone k := now]> cooldown,
             [MessagesCreate (Payload (k_text k) origin (k_phone k))],
             Awaiting k)
        end
    | None => (cooldown, [], Thrown)
    end.
Proof.
  unfold handler_begin, validate.
  destruct (present (phone q)) as [p|]; [|done].
  destruct (present (sender q)) as [s|]; [|by destruct p].
  destruct (present (text q)) as [t|]; [|by destruct p].
  destruct p as [p|items|fs x]; [|done..].
  destruct (isValidPhilippinePhone p); [simpl|done].
  destruct (Js.length_exceeds t 160); [done|].
  by destruct (Js.length_exceeds s 11).
Qed.

(** The same, through [checkAndReserve]. *)
Lemma handler_begin_checkAndReserve (origin : option Js.str)
    (cooldown : gmap Js.str Z) (q : query) (k : pending) (now : Z) :
  validate q = Some (inr k) →
  handler_begin origin cooldown q now
  = match checkAndReserve cooldown (k_phone k) now with
    | (after, Denied remainingTime) =>
        (after, [], Responded (cooldown_active remainingTime))
    | (after, Allowed) =>
        (after, [MessagesCreate (Payload (k_text k) origin (k_phone k))],
         Awaiting k)
    end.
Proof.
  intros Hv. rewrite handler_begin_validate, Hv. unfold checkAndReserve.
  by destruct (cooling cooldown (k_phone k) now).
Qed.

(** What validation lets through is a normalized destination together
    with the sender label and the text of the request. *)
Lemma validate_inr (q : query) (k : pending) :
  validate q = Some (inr k) →
  ∃ raw, present (phone q) = Some (Js.VStr raw)
         ∧ normalize raw = Some (k_phone k)
         ∧ present (sender q) = Some (k_sender k)
         ∧ present (text q) = Some (k_text k)
         ∧ Js.length_exceeds (k_text k) 160 = false
         ∧ Js.length_exceeds (k_sender k) 11 = false.
Proof.
  unfold validate.
  destruct (present (phone q)) as [p|]; [|done].
  destruct (present (sender q)) as [s|]; [|by destruct p].
  destruct (present (text q)) as [t|]; [|by destruct p].
  destruct p as [p|items|fs x]; [|done..].
  destruct (isValidPhilippinePhone p) eqn:Hv; [simpl|done].
  destruct (Js.length_exceeds t 160) eqn:Ht; [done|].
  destruct (Js.length_exceeds s 11) eqn:Hs; [done|].
  intros [= <-]. exists p. unfold normalize. rewrite Hv. simpl.
  split_and!; done.
Qed.

(** The sweep, entry by entry. *)
Lemma sweep_lookup (now : Z) (cooldown : gmap Js.str Z) (phone : Js.str) :
  sweep now cooldown !! phone
  = match cooldown !! phone with
    | Some timestamp =>
        if now - timestamp >? 3600000 then None else Some timestamp
    | None => None
    end.
Proof.
  unfold sweep, retention_ms.
  cut (∀ base : gmap Js.str Z,
         map_fold
           (λ phone timestamp acc,
              if now - timestamp >? 3600000 then delete phone acc else acc)
           base cooldown !! phone
         = match cooldown !! phone with
           | Some timestamp =>
               if now - timestamp >? 3600000 then None else base !! phone
           | None => base !! phone
           end).
  { intros H. rewrite H. by destruct (cooldown !! phone). }
  intros base.
  apply (map_fold_weak_ind
           (λ (r : gmap Js.str Z) (m : gmap Js.str Z),
              r !! phone
              = match m !! phone with
                | Some timestamp =>
                    if now - timestamp >? 3600000 then None else base !! phone
                | None => base !! phone
                end)).
  - by rewrite lookup_empty.
  - intros i x m r Hi IH.
    destruct (decide (i = phone)) as [->|Hne].
    + rewrite lookup_insert_eq. rewrite Hi in IH.
      destruct (now - x >? 3600000); [apply lookup_delete_eq|done].
    + rewrite lookup_insert_ne by done.
      destruct (now - x >? 3600000); [|done].
      by rewrite lookup_delete_ne.
Qed.

End Cooldown.

(** C1.  Let the cooldown map hold for a destination a time [t0] (a reading
    of the clock, so other than zero), and let [t] be a later reading with
    [0 ≤ t - t0 < 10000].  Then check-and-reserve at [t] is denied and
    leaves the map as it was; the seconds it reports are the ceiling of
    [(10000 - (t - t0)) / 1000], a number origin 1 to 10; and the handler, for
    a request that passes validation with that destination, answers 429
    with those seconds, issues no provider call and leaves the map as it
    was. *)
Theorem C1_cooldown_denial (cooldown : gmap Js.str Z) (phone : Js.str)
    (t0 t : Z) :
  cooldown !! phone = Some t0 → t0 ≠ 0 → 0 ≤ t - t0 < 10000 →
  ∃ r, r = Js.ceil_div (10000 - (t - t0)) 1000
       ∧ 1000 * (r - 1) < 10000 - (t - t0) ≤ 1000 * r
       ∧ 0 < r ≤ 10
       ∧ Regional.checkAndReserve cooldown phone t
         = (cooldown, Regional.Denied r)
       ∧ ∀ origin q k,
           Regional.validate q = Some (inr k) → Regional.k_phone k = phone →
           Regional.handler_begin origin cooldown q t
           = (cooldown, [],
              Regional.Responded
                (Http.error_response 429
                   (Js.lit "Please wait " ++ Js.of_int r
                    ++ Js.lit " seconds before sending another message to this number"))).
Proof.
  intros Hl Hnz Ht. eexists. split; [reflexivity|].
  pose proof (ceil_div_spec (10000 - (t - t0)) 1000 eq_refl) as Hc.
  pose proof (cooling_Some cooldown phone t t0 Hl Hnz (proj2 Ht)) as Hcool.
  split_and!; [lia|lia|lia|lia| |].
  - unfold Regional.checkAndReserve. by rewrite Hcool.
  - intros origin q k Hv <-. rewrite handler_begin_validate, Hv, Hcool. done.
Qed.

Lemma C1_cooldown_denial_witness :
  Regional.checkAndReserve
    {[ Js.lit "+639171234567" := 1700000000000 ]}
    (Js.lit "+639171234567") 1700000002500
  = ({[ Js.lit "+639171234567" := 1700000000000 ]}, Regional.Denied 8).
Proof.
  destruct (C1_cooldown_denial
              {[ Js.lit "+639171234567" := 1700000000000 ]}
              (Js.lit "+639171234567") 1700000000000 1700000002500)
    as (r & -> & _ & _ & H & _).
  - apply lookup_singleton_eq.
  - lia.
  - lia.
  - exact H.
Defined.

(** Outside the window of C1: when the clock has been set back between the
    two readings, [t - t0] is negative, the check still denies, and the
    seconds it reports exceed 10. *)
Remark clock_set_back_reports_more :
  1700000005000 - 1700000020000 < 10000
  ∧ Regional.checkAndReserve
      {[ Js.lit "+639171234567" := 1700000020000 ]}
      (Js.lit "+639171234567") 1700000005000
    = ({[ Js.lit "+639171234567" := 1700000020000 ]}, Regional.Denied 25)
  ∧ Regional.handler_begin None
      {[ Js.lit "+639171234567" := 1700000020000 ]}
      Sample.request 1700000005000
    = ({[ Js.lit "+639171234567" := 1700000020000 ]}, [],
       Regional.Responded
         (Http.error_response 429
            (Js.lit "Please wait 25 seconds before sending another message to this number")))
  ∧ ¬ (25 ≤ 10).
Proof.
  assert (Hcool :
    Regional.cooling {[ Js.lit "+639171234567" := 1700000020000 ]}
      (Js.lit "+639171234567") 1700000005000 = Some 25).
  { by rewrite (cooling_Some _ _ _ 1700000020000)
      by (apply lookup_singleton_eq || lia). }
  split_and!; [lia| | |lia].
  - unfold Regional.checkAndReserve. by rewrite Hcool.
  - rewrite handler_begin_validate.
    change (Regional.validate Sample.request)
      with (Some (inr Sample.waiting : Http.response + Regional.pending)).
    cbn [Regional.k_phone Sample.waiting].
    change Sample.number with (Js.lit "+639171234567").
    by rewrite Hcool.
Qed.

(** A reservation written at reading zero does not count: zero is falsy,
    so the [lastSent &&] test takes the entry for a missing one. *)
Remark reservation_at_zero_ignored :
  Regional.checkAndReserve {[ Js.lit "+639171234567" := 0 ]}
    (Js.lit "+639171234567") 5000
  = (<[ Js.lit "+639171234567" := 5000 ]>
       {[ Js.lit "+639171234567" := 0 ]},
     Regional.Allowed).
Proof.
  unfold Regional.checkAndReserve, Regional.cooling.
  by rewrite lookup_singleton_eq.
Qed.

(** C2.  When the provider call fails, what the handler leaves behind is
    the map with the entry of the destination deleted; check-and-reserve
    for that destination is then allowed at any reading, and the handler
    takes a following request for that destination through to the
    provider. *)
Theorem C2_rollback_then_allowed (cooldown : gmap Js.str Z)
    (k : Regional.pending) (error : Regional.provider_error)
    (t : Regional.stamps) :
  ∃ after : gmap Js.str Z,
    (Regional.handler_resume cooldown k (Regional.Failed error) t).1.1 = after
    ∧ after = delete (Regional.k_phone k) cooldown
    ∧ after !! Regional.k_phone k = None
    ∧ (∀ now, Regional.checkAndReserve after (Regional.k_phone k) now
              = (<[Regional.k_phone k := now]> after, Regional.Allowed))
    ∧ ∀ origin q k' now,
        Regional.validate q = Some (inr k') →
        Regional.k_phone k' = Regional.k_phone k →
        Regional.handler_begin origin after q now
        = (<[Regional.k_phone k := now]> after,
           [Regional.MessagesCreate
              (Regional.Payload (Regional.k_text k') origin (Regional.k_phone k))],
           Regional.Awaiting k').
Proof.
  exists (delete (Regional.k_phone k) cooldown).
  assert (Hgone : delete (Regional.k_phone k) cooldown !! Regional.k_phone k
                  = None) by apply lookup_delete_eq.
  split_and!; [done|done|done| |].
  - intros now. unfold Regional.checkAndReserve.
    by rewrite cooling_absent.
  - intros origin q k' now Hv Hk.
    rewrite handler_begin_validate, Hv, Hk. by rewrite cooling_absent.
Qed.

(** C5.  The sweep at reading [now] deletes an entry exactly when
    [now - timestamp] is greater than 3600000; an entry whose age is at most
    3600000 is still there with its timestamp, and the sweep adds nothing. *)
Theorem C5_sweep_retention (now : Z) (cooldown : gmap Js.str Z)
    (phone : Js.str) :
  (∀ timestamp,
     cooldown !! phone = Some timestamp →
     (Regional.sweep now cooldown !! phone = None ↔ now - timestamp > 3600000)
     ∧ (now - timestamp ≤ 3600000 →
        Regional.sweep now cooldown !! phone = Some timestamp))
  ∧ (cooldown !! phone = None → Regional.sweep now cooldown !! phone = None).
Proof.
  rewrite sweep_lookup. split.
  - intros timestamp ->.
    destruct (Z.gtb_spec (now - timestamp) 3600000) as [Hgt|Hle].
    + split; [split; [intros _; lia|done]|intros; lia].
    + split; [split; [done|intros; lia]|done].
  - by intros ->.
Qed.

Lemma C5_sweep_retention_witness :
  Regional.sweep 3600001 {[ Js.lit "+639171234567" := 1 ]}
    !! Js.lit "+639171234567" = Some 1.
Proof.
  destruct (C5_sweep_retention 3600001 {[ Js.lit "+639171234567" := 1 ]}
              (Js.lit "+639171234567")) as [H _].
  apply (H 1); [apply lookup_singleton_eq | lia].
Defined.

Lemma C2_rollback_then_allowed_witness :
  Regional.handler_begin None
    (delete Sample.number {[ Sample.number := 1700000000000 ]})
    Sample.request 1700000000500
  = (<[Sample.number := 1700000000500]>
       (delete Sample.number {[ Sample.number := 1700000000000 ]}),
     [Regional.MessagesCreate
        (Regional.Payload (Js.VStr (Js.lit "Hello")) None Sample.number)],
     Regional.Awaiting Sample.waiting).
Proof.
  destruct (C2_rollback_then_allowed {[ Sample.number := 1700000000000 ]}
              Sample.waiting Sample.blacklisted Sample.stamps)
    as (after & _ & -> & _ & _ & H).
  apply (H None Sample.request Sample.waiting 1700000000500); reflexivity.
Defined.

(** ** Responses after the provider call *)

Section ProviderOutcome.
Import Http Regional.





Lemma unlisted_spec (error : provider_error) :
  Inv.unlisted error ↔
  code_is error 21211 = false ∧ code_is error 21408 = false
  ∧ code_is error 21610 = false ∧ code_is error 21614 = false.
Proof.
  unfold Inv.unlisted, Inv.known_codes, code_is.
  destruct (code error) as [c|].
  - rewrite !Z.eqb_neq. split.
    + intros H. specialize (H c eq_refl).
      rewrite !elem_of_cons, elem_of_nil in H. lia.
    + intros H c' [= <-]. rewrite !elem_of_cons, elem_of_nil. lia.
  - split; [done|]. intros _ c [=].
Qed.

Lemma code_is_true (error : provider_error) (n : Z) :
  code_is error n = true ↔ code error = Some n.
Proof.
  unfold code_is. destruct (code error) as [c|]; [|done].
  rewrite Z.eqb_eq. split; congruence.
Qed.


End ProviderOutcome.



(** C9, as the code has it.  In the regional server, on provider success
    (and with a string for a text, without which the handler does not get as
    far as its success response), the response is 200 and its body has
    exactly the fields success, message, messageId, recipient, sender and
    timestamp, where messageId is the identifier the provider returned,
    recipient the normalized destination and sender the sender label of the
    request; and every 200 response of that server is this one.  In the
    generic server every 200 response has exactly the fields success,
    message, messageId and timestamp. *)
Theorem C9_success_body :
  (∀ (cooldown : gmap Js.str Z) k sid t text,
     Regional.k_text k = Js.VStr text →
     (Regional.handler_resume cooldown k (Regional.Sent sid) t).2
     = Some (Http.Response 200
               [("success", Http.JBool true);
                ("message", Http.JString (Js.lit "SMS sent successfully!"));
                ("messageId", Http.JString sid);
                ("recipient", Http.JString (Regional.k_phone k));
                ("sender", Http.JValue (Regional.k_sender k));
                ("timestamp", Http.JString (Regional.at_response t))]%string))
  ∧ (∀ (cooldown : gmap Js.str Z) k o t r,
       (Regional.handler_resume cooldown k o t).2 = Some r →
       Http.status r = 200 →
       ∃ sid, o = Regional.Sent sid
              ∧ Http.body r
                = [("success", Http.JBool true);
                   ("message", Http.JString (Js.lit "SMS sent successfully!"));
                   ("messageId", Http.JString sid);
                   ("recipient", Http.JString (Regional.k_phone k));
                   ("sender", Http.JValue (Regional.k_sender k));
                   ("timestamp",
                    Http.JString (Regional.at_response t))]%string)
  ∧ (∀ origin (cooldown after : gmap Js.str Z) q now done k,
       Regional.handler_begin origin cooldown q now
       = (after, done, Regional.Awaiting k) →
       ∃ raw, Http.present (Http.phone q) = Some (Js.VStr raw)
              ∧ Regional.normalize raw = Some (Regional.k_phone k)
              ∧ Http.present (Http.sender q) = Some (Regional.k_sender k))
  ∧ (∀ q e r, (Generic.handler q e).2 = Some r → Http.status r = 200 →
              Http.fields (Http.body r)
              = ["success"; "message"; "messageId"; "timestamp"]%string).
Proof.
  split_and!.
  - intros cooldown k sid t text Ht. cbn [Regional.handler_resume].
    by rewrite Ht.
  - intros cooldown k o t r. destruct o as [sid|error].
    + cbn [Regional.handler_resume].
      destruct (Regional.k_text k) as [text|items|fs x].
      * intros [= <-] _. by exists sid.
      * intros [= <-]. done.
      * intros [= <-]. done.
    + cbn [Regional.handler_resume Regional.caught snd].
      destruct (Regional.classify error); [|done]. intros [= <-]. done.
  - intros origin cooldown after q now done k.
    rewrite handler_begin_validate.
    destruct (Regional.validate q) as [[r|k']|] eqn:Hv; [done| |done].
    destruct (Regional.cooling cooldown (Regional.k_phone k') now); [done|].
    intros [= _ _ <-].
    destruct (validate_inr q k' Hv) as (raw & ? & ? & ? & _). eauto.
  - intros q e r.
    destruct (handler_cases q e)
      as [H|[H|[H|[H|(p & s & t & _ & _ & _ & H)]]]];
      rewrite H; simpl; intros [= <-]; done.
Qed.

Lemma C9_success_body_witness :
  Http.fields
    <$> (Http.body
           <$> (Generic.handler Sample.generic_request Sample.readings).2)
  = Some ["success"; "message"; "messageId"; "timestamp"]%string.
Proof.
  destruct C9_success_body as (_ & _ & _ & H).
  exact (f_equal Some
           (H Sample.generic_request Sample.readings _ eq_refl eq_refl)).
Defined.

(** C9, as the claim words it, fails in the generic server: the body of its
    200 response has four fields, and recipient and sender are not among
    them. *)
Lemma C9_generic_body_lacks_fields :
  Http.status <$> (Generic.handler Sample.generic_request Sample.readings).2
  = Some 200
  ∧ Http.fields
      <$> (Http.body
             <$> (Generic.handler Sample.generic_request Sample.readings).2)
    = Some ["success"; "message"; "messageId"; "timestamp"]%string
  ∧ Http.fields
      <$> (Http.body
             <$> (Generic.handler Sample.generic_request Sample.readings).2)
    ≠ Some ["success"; "message"; "messageId"; "recipient"; "sender";
            "timestamp"]%string.
Proof. split_and!; [done|done|]. intros H. vm_compute in H. discriminate H. Qed.

(** ** Requests in flight *)

Section InFlight.
Import Http Regional.

(** A request that passes validation is admitted exactly when the check
    finds nothing cooling. *)
Lemma admitted_validated (origin : option Js.str) (s : system) (q : query)
    (k : pending) (now : Z) :
  validate q = Some (inr k) →
  admitted origin s q now
  = match cooling (store s) (k_phone k) now with
    | Some _ => false
    | None => true
    end.
Proof.
  intros Hv. unfold admitted. rewrite handler_begin_validate, Hv.
  by destruct (cooling (store s) (k_phone k) now).
Qed.

(** One event that leaves the reservation alone finds it again afterwards,
    with the same timestamp. *)
Lemma step_keeps_reservation (origin : option Js.str) (phone : Js.str)
    (t t' : Z) (s : system) (ev : event) :
  t ≠ 0 → t' - t < 10000 →
  store s !! phone = Some t →
  leaves_alone phone t' s ev →
  store (step origin s ev).1 !! phone = Some t.
Proof.
  intros Hnz Hwin Hres Hev. destruct ev as [q now|i o st|now]; simpl in *.
  - rewrite handler_begin_validate.
    destruct (validate q) as [[r|k]|]; [done| |done].
    destruct (cooling (store s) (k_phone k) now) as [r|] eqn:Hc; [done|].
    simpl. destruct (decide (k_phone k = phone)) as [Heq|Hne].
    + rewrite Heq in Hc.
      rewrite (cooling_Some (store s) phone now t) in Hc by (done || lia).
      done.
    + by rewrite lookup_insert_ne.
  - destruct (inflight s !! i) as [k|] eqn:Hk; [|done].
    specialize (Hev k eq_refl). unfold ends_in_catch in Hev.
    destruct o as [sid|error]; cbn [handler_resume].
    + destruct (k_text k) as [text|items|fs x]; [done|..];
        cbn [caught fst store]; unfold rollback;
        (rewrite lookup_delete_ne; [done|]); by apply Hev.
    + cbn [caught fst store]. unfold rollback.
      rewrite lookup_delete_ne; [done|]. by apply Hev.
  - rewrite sweep_lookup, Hres.
    destruct (Z.gtb_spec (now - t) 3600000); [lia|done].
Qed.

Lemma run_keeps_reservation (origin : option Js.str) (phone : Js.str)
    (t t' : Z) (evs : list event) (s : system) :
  t ≠ 0 → t' - t < 10000 →
  store s !! phone = Some t →
  undisturbed origin phone t' s evs →
  store (run origin s evs).1 !! phone = Some t.
Proof.
  intros Hnz Hwin. revert s.
  induction evs as [|ev evs IH]; intros s Hres Hund; [done|].
  destruct Hund as [Hev Hund]. simpl.
  pose proof (step_keeps_reservation origin phone t t' s ev Hnz Hwin Hres Hev)
    as Hnext.
  destruct (step origin s ev) as [s1 r] eqn:Hs1. simpl in *.
  specialize (IH s1 Hnext Hund).
  by destruct (run origin s1 evs) as [s2 rs].
Qed.

End InFlight.

(** C4, as the code has it.  A request that is admitted at a reading [t]
    other than zero has its timestamp in the cooldown map when its provider
    call is issued.  From then on, through any events none of whose clock
    readings is later than [t'] and among which no send for the same
    destination ends in the [catch] block (because its provider call fails,
    or because it succeeds for a text that is not a string, which makes the
    log line throw), a request for the same destination at a reading [t']
    with [t ≤ t' < t + 10000] is not admitted: it is answered 429 and no
    provider call is issued for it. *)
Theorem C4_reservation_precedes_call (origin : option Js.str)
    (s : Regional.system) (qA : Http.query) (kA : Regional.pending) (t : Z) :
  Regional.validate qA = Some (inr kA) → t ≠ 0 →
  Regional.admitted origin s qA t = true →
  Regional.handler_begin origin (Regional.store s) qA t
  = (<[Regional.k_phone kA := t]> (Regional.store s),
     [Regional.MessagesCreate
        (Regional.Payload (Regional.k_text kA) origin (Regional.k_phone kA))],
     Regional.Awaiting kA)
  ∧ Regional.step origin s (Regional.Request qA t)
    = (Regional.System (<[Regional.k_phone kA := t]> (Regional.store s))
         (Regional.inflight s ++ [kA]), None)
  ∧ ∀ evs t' qB kB,
      Regional.undisturbed origin (Regional.k_phone kA) t'
        (Regional.step origin s (Regional.Request qA t)).1 evs →
      t ≤ t' < t + 10000 →
      Regional.validate qB = Some (inr kB) →
      Regional.k_phone kB = Regional.k_phone kA →
      ∃ after r,
        (Regional.run origin
           (Regional.step origin s (Regional.Request qA t)).1 evs).1 = after
        ∧ Regional.admitted origin after qB t' = false
        ∧ Regional.step origin after (Regional.Request qB t')
          = (after, Some (Regional.cooldown_active r))
        ∧ Http.status (Regional.cooldown_active r) = 429.
Proof.
  intros HvA Hnz Hadm.
  rewrite (admitted_validated origin s qA kA t HvA) in Hadm.
  assert (Hbegin :
    Regional.handler_begin origin (Regional.store s) qA t
    = (<[Regional.k_phone kA := t]> (Regional.store s),
       [Regional.MessagesCreate
          (Regional.Payload (Regional.k_text kA) origin (Regional.k_phone kA))],
       Regional.Awaiting kA)).
  { rewrite handler_begin_validate, HvA.
    by destruct (Regional.cooling (Regional.store s) (Regional.k_phone kA) t). }
  assert (Hstep :
    Regional.step origin s (Regional.Request qA t)
    = (Regional.System (<[Regional.k_phone kA := t]> (Regional.store s))
         (Regional.inflight s ++ [kA]), None)).
  { simpl. by rewrite Hbegin. }
  split_and!; [done|done|].
  intros evs t' qB kB Hund Ht' HvB Hsame. rewrite Hstep in Hund |- *.
  simpl in Hund |- *.
  set (s1 := Regional.System (<[Regional.k_phone kA := t]> (Regional.store s))
               (Regional.inflight s ++ [kA])) in *.
  assert (Hres : Regional.store (Regional.run origin s1 evs).1
                   !! Regional.k_phone kA = Some t).
  { apply (run_keeps_reservation origin _ t t'); [done|lia| |done].
    apply lookup_insert_eq. }
  pose proof (cooling_Some _ _ t' t Hres Hnz ltac:(lia)) as Hcool.
  eexists _, _. split_and!; [done| | |done].
  - rewrite (admitted_validated origin _ qB kB t' HvB).
    by rewrite Hsame, Hcool.
  - cbn [Regional.step].
    rewrite handler_begin_validate, HvB, Hsame, Hcool.
    by destruct (Regional.run origin s1 evs).1.
Qed.

(** The key of the map is the string the handler goes on with, separators
    included: the same number written with hyphens has a slot of its own. *)
Remark separators_give_another_slot :
  Regional.admitted None
    (Regional.step None (Regional.System ∅ [])
       (Regional.Request Sample.request 1700000000000)).1
    (Http.Query (Some (Js.VStr (Js.lit "0917-123-4567")))
       (Some (Js.VStr (Js.lit "TEST"))) (Some (Js.VStr (Js.lit "Hello"))))
    1700000001000
  = true.
Proof. by vm_compute. Qed.

Lemma C4_reservation_precedes_call_witness :
  Regional.admitted None
    (Regional.run None
       (Regional.step None (Regional.System ∅ [])
          (Regional.Request Sample.request 1700000000000)).1
       [Regional.Tick 1700000001000]).1
    Sample.request 1700000002000
  = false.
Proof.
  destruct (C4_reservation_precedes_call None (Regional.System ∅ [])
              Sample.request Sample.waiting 1700000000000)
    as (_ & _ & H); [reflexivity | lia | reflexivity |].
  destruct (H [Regional.Tick 1700000001000] 1700000002000
              Sample.request Sample.waiting)
    as (after & r & <- & Hno & _); [| lia | reflexivity | reflexivity | exact Hno].
  simpl. split; [lia | exact I].
Defined.

(** C4, as the claim words it, fails when an older request for the same
    destination is still in flight.  The first request reserves at 1000 and
    its provider call hangs; the second comes eleven seconds later, is
    admitted and reserves again; then the first call fails and its rollback
    deletes the entry, which by now is the reservation of the second.  A
    third request, one second after the second and with the second still in
    flight, is admitted too. *)
Lemma C4_older_rollback_frees_slot :
  Regional.run None (Regional.System ∅ [])
    [Regional.Request Sample.request 1700000001000;
     Regional.Request Sample.request 1700000012000;
     Regional.Settle 0 Sample.timed_out Sample.stamps]
  = (Regional.System ∅ [Sample.waiting],
     [None; None;
      Some (Http.error_response 500 (Js.lit "Failed to send SMS"))])
  ∧ Regional.admitted None (Regional.System ∅ [Sample.waiting])
      Sample.request 1700000013000
    = true
  ∧ 1700000012000 ≤ 1700000013000 < 1700000012000 + 10000.
Proof. split_and!; [by vm_compute|by vm_compute|lia|lia]. Qed.

(** The same happens without any provider failure when the text of the
    older request arrived as an array: its provider call succeeds, the log
    line throws on [text.substring], and the [catch] block answers 500 and
    deletes the entry, which by now is the reservation of the second
    request. *)
Remark success_with_array_text_rolls_back :
  Regional.run None (Regional.System ∅ [])
    [Regional.Request Sample.request_with_array 1700000001000;
     Regional.Request Sample.request 1700000012000;
     Regional.Settle 0 Sample.delivered Sample.stamps]
  = (Regional.System ∅ [Sample.waiting],
     [None; None;
      Some (Http.error_response 500 (Js.lit "Failed to send SMS"))])
  ∧ Regional.admitted None (Regional.System ∅ [Sample.waiting])
      Sample.request 1700000013000
    = true.
Proof. split; by vm_compute. Qed.

(** ** More on the cooldown check *)

Section Verdicts.
Import Http Regional.

(** When the check finds the destination cooling, and what it reports. *)
Lemma cooling_Some_iff (cooldown : gmap Js.str Z) (phone : Js.str)
    (now r : Z) :
  cooling cooldown phone now = Some r ↔
  ∃ t0, cooldown !! phone = Some t0 ∧ t0 ≠ 0 ∧ now - t0 < 10000
        ∧ r = Js.ceil_div (10000 - (now - t0)) 1000.
Proof.
  unfold cooling, Js.truthy_num, cooldown_ms. split.
  - destruct (cooldown !! phone) as [t0|]; [|done].
    destruct (Z.eqb_spec t0 0); [done|].
    destruct (Z.ltb_spec (now - t0) 10000); [|done].
    intros [= <-]. eauto.
  - intros (t0 & -> & Hnz & Hlt & ->).
    destruct (Z.eqb_spec t0 0); [done|].
    by destruct (Z.ltb_spec (now - t0) 10000); [|lia].
Qed.

Lemma cooling_None_iff (cooldown : gmap Js.str Z) (phone : Js.str) (now : Z) :
  cooling cooldown phone now = None ↔
  cooldown !! phone = None ∨ cooldown !! phone = Some 0
  ∨ ∃ t0, cooldown !! phone = Some t0 ∧ 10000 ≤ now - t0.
Proof.
  unfold cooling, Js.truthy_num, cooldown_ms. split.
  - destruct (cooldown !! phone) as [t0|]; [|by left].
    destruct (Z.eqb_spec t0 0) as [->|?]; [by right; left|].
    destruct (Z.ltb_spec (now - t0) 10000); [done|]. right; right. eauto.
  - intros [->|[->|(t0 & -> & Hge)]]; [done|done|].
    destruct (Z.ltb_spec (now - t0) 10000); [lia|]. by rewrite andb_false_r.
Qed.

End Verdicts.

(** X2.  The wait the denial announces is enough and is not padded by a
    whole second: if the check denies at reading [t] with [r] seconds, then,
    the entry staying as it is, the check allows at every reading from
    [t + 1000 r] on and still denies at every reading up to
    [t + 1000 (r - 1)]. *)
Theorem X2_announced_wait_is_tight (cooldown : gmap Js.str Z)
    (phone : Js.str) (t r : Z) :
  Regional.cooling cooldown phone t = Some r →
  (∀ t2, t + 1000 * r ≤ t2 → Regional.cooling cooldown phone t2 = None)
  ∧ (∀ t2, t2 ≤ t + 1000 * (r - 1) →
           is_Some (Regional.cooling cooldown phone t2)).
Proof.
  intros Hc. apply cooling_Some_iff in Hc as (t0 & Hl & Hnz & Hlt & ->).
  pose proof (ceil_div_spec (10000 - (t - t0)) 1000 eq_refl) as Hceil. split.
  - intros t2 Ht2. apply cooling_None_iff. right; right. exists t0.
    split; [done|lia].
  - intros t2 Ht2. eexists. apply cooling_Some_iff. exists t0.
    split_and!; [done|done|lia|done].
Qed.

Lemma X2_announced_wait_is_tight_witness :
  Regional.cooling {[ Sample.number := 1700000000000 ]} Sample.number
    1700000010500 = None.
Proof.
  destruct (X2_announced_wait_is_tight {[ Sample.number := 1700000000000 ]}
              Sample.number 1700000002500 8) as [H _].
  - by rewrite (cooling_Some _ _ _ 1700000000000)
      by (apply lookup_singleton_eq || lia).
  - apply H. lia.
Defined.

(** ** What the handler hands on *)

Section HandedOn.
Import Http Regional.

Lemma present_Some (v : option Js.value) (x : Js.value) :
  present v = Some x ↔ v = Some x ∧ Js.truthy x = true.
Proof.
  unfold present. destruct v as [y|]; [|by split; [|intros [? _]]].
  destruct (Js.truthy y) eqn:Hy; split.
  - by intros [= <-].
  - by intros [[= <-] _].
  - done.
  - intros [[= <-] ?]. congruence.
Qed.

Lemma truthy_false (x : Js.value) : Js.truthy x = false ↔ x = Js.VStr [].
Proof.
  destruct x as [[|c w]|items|fs n]; simpl; split; done.
Qed.

Lemma present_None (v : option Js.value) : present v = None ↔ Inv.blank v.
Proof.
  unfold present, Inv.blank. destruct v as [y|]; [|by split; auto].
  destruct (Js.truthy y) eqn:Hy; split.
  - done.
  - intros [?|[= ->]]; done.
  - intros _. right. f_equal. by apply truthy_false.
  - done.
Qed.

(** The rewrite of an accepted number is forwardable. *)
Lemma to_international_forwardable (raw : Js.str) :
  isValidPhilippinePhone raw = true →
  Inv.forwardable (to_international raw) = true.
Proof.
  intros Hv. unfold Inv.forwardable.
  rewrite (to_international_valid raw Hv).
  unfold to_international, Js.replace_prefix.
  destruct (Js.after_prefix (Js.lit "09") raw) as [rest|] eqn:Hp.
  - done.
  - by rewrite Hp.
Qed.

Lemma validate_sendable (q : query) (k : pending) :
  validate q = Some (inr k) → Inv.sendable k.
Proof.
  intros Hv.
  destruct (validate_inr q k Hv) as (raw & _ & Hn & Hs & Ht & Hlt & Hls).
  apply normalize_Some in Hn as [Hvalid Hk].
  apply present_Some in Hs as [_ Hs]. apply present_Some in Ht as [_ Ht].
  unfold Inv.sendable. rewrite Hk.
  split_and!; try done. by apply to_international_forwardable.
Qed.

(** Every refusal of the validation is a response with status 400. *)
Lemma validate_inl (q : query) (r : response) :
  validate q = Some (inl r) → status r = 400.
Proof.
  unfold validate.
  destruct (present (phone q)) as [p|]; [|by intros [= <-]].
  destruct (present (sender q)); [|by destruct p; intros [= <-]].
  destruct (present (text q)); [|by destruct p; intros [= <-]].
  destruct p as [p|items|fs x]; [|done..].
  destruct (isValidPhilippinePhone _); [simpl|by intros [= <-]].
  destruct (Js.length_exceeds _ 160); [by intros [= <-]|].
  destruct (Js.length_exceeds _ 11); [by intros [= <-]|done].
Qed.


(** The three ways the handler gets to its [await] or to its end. *)
Lemma handler_begin_cases (origin : option Js.str) (cooldown : gmap Js.str Z)
    (q : query) (now : Z) :
  (∃ r, handler_begin origin cooldown q now = (cooldown, [], Responded r)
        ∧ (status r = 400 ∨ status r = 429))
  ∨ (handler_begin origin cooldown q now = (cooldown, [], Thrown)
     ∧ validate q = None)
  ∨ (∃ k, handler_begin origin cooldown q now
          = (<[k_phone k := now]> cooldown,
             [MessagesCreate (Payload (k_text k) origin (k_phone k))],
             Awaiting k)
          ∧ Inv.sendable k).
Proof.
  rewrite handler_begin_validate.
  destruct (validate q) as [[r|k]|] eqn:Hv.
  - left. exists r. split; [done|]. left. by apply (validate_inl q).
  - destruct (cooling cooldown (k_phone k) now) as [s|].
    + left. eexists. split; [done|]. by right.
    + right; right. exists k. split; [done|]. by apply (validate_sendable q).
  - by right; left.
Qed.

Lemma step_well_kept (origin : option Js.str) (s : system) (ev : event) :
  Inv.well_kept s → Inv.well_kept (step origin s ev).1.
Proof.
  intros [Hstore Hfl]. destruct ev as [q now|i o st|now]; simpl.
  - destruct (handler_begin_cases origin (store s) q now)
      as [(r & -> & _)|[[-> _]|(k & -> & Hk)]]; simpl; [done|done|].
    split; simpl.
    + apply map_Forall_insert_2; [apply Hk|done].
    + apply Forall_app. split; [done|]. by apply Forall_singleton.
  - destruct (inflight s !! i) as [k|] eqn:Hi; [|done].
    assert (Hdel : Inv.well_kept
                     (System (rollback (store s) (k_phone k))
                        (delete i (inflight s)))).
    { split; simpl; [|by apply Forall_delete].
      unfold rollback. by apply map_Forall_delete. }
    destruct o as [sid|error]; cbn [handler_resume]; [|done].
    destruct (k_text k) as [text|items|fs x]; [|done..].
    split; simpl; [done|]. by apply Forall_delete.
  - split; simpl; [|done].
    intros key ts Hl. rewrite sweep_lookup in Hl.
    destruct (store s !! key) as [ts'|] eqn:Hk; [|done].
    by apply (Hstore key ts').
Qed.

End HandedOn.

(** X3.  The check, the rollback and both halves of the handler touch the
    entry of one destination only: the entry of any other key is after them
    what it was before. *)
Theorem X3_other_destinations_untouched (cooldown : gmap Js.str Z)
    (key : Js.str) :
  (∀ phone now, phone ≠ key →
     (Regional.checkAndReserve cooldown phone now).1 !! key = cooldown !! key)
  ∧ (∀ phone, phone ≠ key →
       Regional.rollback cooldown phone !! key = cooldown !! key)
  ∧ (∀ origin q now,
       (∀ k, Regional.validate q = Some (inr k) → Regional.k_phone k ≠ key) →
       (Regional.handler_begin origin cooldown q now).1.1 !! key
       = cooldown !! key)
  ∧ (∀ k o t, Regional.k_phone k ≠ key →
       (Regional.handler_resume cooldown k o t).1.1 !! key = cooldown !! key).
Proof.
  split_and!.
  - intros phone now Hne. unfold Regional.checkAndReserve.
    destruct (Regional.cooling cooldown phone now); simpl; [done|].
    by rewrite lookup_insert_ne.
  - intros phone Hne. unfold Regional.rollback. by rewrite lookup_delete_ne.
  - intros origin q now Hne. rewrite handler_begin_validate.
    destruct (Regional.validate q) as [[r|k]|] eqn:Hv; [done| |done].
    destruct (Regional.cooling cooldown (Regional.k_phone k) now); [done|].
    simpl. rewrite lookup_insert_ne; [done|]. by apply Hne.
  - intros k [sid|error] t Hne; cbn [Regional.handler_resume].
    + destruct (Regional.k_text k); [done|..]; cbn [Regional.caught fst];
        unfold Regional.rollback; by rewrite lookup_delete_ne.
    + cbn [Regional.caught fst]. unfold Regional.rollback.
      by rewrite lookup_delete_ne.
Qed.

Lemma X3_other_destinations_untouched_witness :
  (Regional.handler_begin None {[ Js.lit "+639181234567" := 1700000000000 ]}
     Sample.request 1700000000500).1.1 !! Js.lit "+639181234567"
  = Some 1700000000000.
Proof.
  destruct (X3_other_destinations_untouched
              {[ Js.lit "+639181234567" := 1700000000000 ]}
              (Js.lit "+639181234567")) as (_ & _ & H & _).
  rewrite H; [apply lookup_singleton_eq|].
  intros k [= <-]. discriminate.
Defined.


(** X5.  The server keeps its books clean: if every destination in the
    cooldown map and every send in flight is forwardable (it passes the
    validator and does not begin with [09]; sends also have a text and a
    sender label that are not the empty string and whose [length] does not
    compare greater than 160 and 11), then so it is after any sequence of
    requests, provider completions and sweeps.  A server that starts empty
    is always in such a state. *)
Theorem X5_books_stay_clean (origin : option Js.str) (evs : list Regional.event)
    (s : Regional.system) :
  Inv.well_kept s → Inv.well_kept (Regional.run origin s evs).1.
Proof.
  revert s. induction evs as [|ev evs IH]; intros s Hs; [done|]. simpl.
  pose proof (step_well_kept origin s ev Hs) as Hnext.
  destruct (Regional.step origin s ev) as [s1 r]. simpl in Hnext.
  specialize (IH s1 Hnext).
  by destruct (Regional.run origin s1 evs) as [s2 rs].
Qed.

Lemma X5_books_stay_clean_witness :
  Inv.well_kept
    (Regional.run None (Regional.System ∅ [])
       [Regional.Request Sample.request 1700000001000;
        Regional.Tick 1700000002000;
        Regional.Settle 0 Sample.timed_out Sample.stamps]).1.
Proof.
  apply X5_books_stay_clean. split.
  - apply map_Forall_empty.
  - apply Forall_nil_2.
Defined.

(** ** The sweep and the request path *)

(** X6.  The sweep is invisible to the request path.  If the sweep ran at
    a reading that is not more than 3590000 ms ahead of the reading of a
    check (as it is whenever the check comes after the sweep), the check
    finds the same thing in the swept map as in the unswept one: the same
    verdict, the same seconds, and the handler gives the same response and
    issues the same call. *)
Theorem X6_sweep_invisible_to_requests (cooldown : gmap Js.str Z)
    (swept_at now : Z) :
  swept_at - now ≤ 3590000 →
  (∀ phone,
     Regional.cooling (Regional.sweep swept_at cooldown) phone now
     = Regional.cooling cooldown phone now)
  ∧ (∀ phone,
       (Regional.checkAndReserve (Regional.sweep swept_at cooldown) phone now).2
       = (Regional.checkAndReserve cooldown phone now).2)
  ∧ (∀ origin q,
       (Regional.handler_begin origin (Regional.sweep swept_at cooldown) q now).2
       = (Regional.handler_begin origin cooldown q now).2
       ∧ (Regional.handler_begin origin (Regional.sweep swept_at cooldown)
            q now).1.2
         = (Regional.handler_begin origin cooldown q now).1.2).
Proof.
  intros Hnear.
  assert (Hcool : ∀ phone,
    Regional.cooling (Regional.sweep swept_at cooldown) phone now
    = Regional.cooling cooldown phone now).
  { intros phone. unfold Regional.cooling at 1. rewrite sweep_lookup.
    destruct (cooldown !! phone) as [ts|] eqn:Hl.
    - destruct (Z.gtb_spec (swept_at - ts) 3600000) as [Hold|Hyoung].
      + symmetry. apply (cooling_expired _ _ _ ts); [done|lia].
      + unfold Regional.cooling. by rewrite Hl.
    - symmetry. by apply cooling_absent. }
  split_and!; [done| |].
  - intros phone. unfold Regional.checkAndReserve. rewrite Hcool.
    by destruct (Regional.cooling cooldown phone now).
  - intros origin q. rewrite !handler_begin_validate.
    destruct (Regional.validate q) as [[r|k]|]; [done| |done]. rewrite Hcool.
    by destruct (Regional.cooling cooldown (Regional.k_phone k) now).
Qed.

Lemma X6_sweep_invisible_to_requests_witness :
  Regional.cooling
    (Regional.sweep 1700003700000 {[ Sample.number := 1700000000000 ]})
    Sample.number 1700003700001
  = Regional.cooling {[ Sample.number := 1700000000000 ]}
      Sample.number 1700003700001.
Proof.
  destruct (X6_sweep_invisible_to_requests
              {[ Sample.number := 1700000000000 ]}
              1700003700000 1700003700001) as [H _]; [lia|].
  apply H.
Defined.

(** X7.  Sweeps compose: a sweep after a sweep is the sweep at the later
    of the two readings.  In particular a sweep repeated at the same reading
    changes nothing further, and an earlier sweep never makes a later one
    delete more or less. *)
Theorem X7_sweeps_compose (cooldown : gmap Js.str Z) (first second : Z) :
  Regional.sweep second (Regional.sweep first cooldown)
  = Regional.sweep (Z.max first second) cooldown.
Proof.
  apply map_eq. intros phone. rewrite !sweep_lookup.
  destruct (cooldown !! phone) as [ts|]; [|done].
  destruct (Z.gtb_spec (first - ts) 3600000);
    destruct (Z.gtb_spec (Z.max first second - ts) 3600000);
    try destruct (Z.gtb_spec (second - ts) 3600000); done || lia.
Qed.

(** X8.  The sweep only ever deletes: what it leaves is a part of the map
    it was given, and it leaves the whole map exactly when no entry is older
    than 3600000 ms. *)
Theorem X8_sweep_only_deletes (now : Z) (cooldown : gmap Js.str Z) :
  Regional.sweep now cooldown ⊆ cooldown
  ∧ (Regional.sweep now cooldown = cooldown ↔
     map_Forall (λ _ timestamp, now - timestamp ≤ 3600000) cooldown).
Proof.
  split.
  - apply map_subseteq_spec. intros phone ts. rewrite sweep_lookup.
    destruct (cooldown !! phone) as [ts'|]; [|done].
    by destruct (now - ts' >? 3600000).
  - split.
    + intros Heq phone ts Hl. pose proof (sweep_lookup now cooldown phone) as H.
      rewrite Heq, Hl in H.
      destruct (Z.gtb_spec (now - ts) 3600000); [done|lia].
    + intros Hall. apply map_eq. intros phone. rewrite sweep_lookup.
      destruct (cooldown !! phone) as [ts|] eqn:Hl; [|done].
      specialize (Hall phone ts Hl). simpl in Hall.
      destruct (Z.gtb_spec (now - ts) 3600000); [lia|done].
Qed.

(** ** The classification of provider errors, read backwards *)

(** Two different message literals are never equal. *)
Ltac literal_clash :=
  match goal with
  | H : Some (Js.lit _) = Some (Js.lit _) |- _ =>
      vm_compute in H; discriminate H
  | H : Some _ = None |- _ => discriminate H
  | H : None = Some _ |- _ => discriminate H
  end.

(** X9.  The response to a provider failure tells the cause, and nothing
    else does.  Each of the four code messages is given exactly for its
    code, whatever the text of the error; the configuration message exactly
    for an error of another code whose text mentions an authentication
    error; the general message exactly for an error of another code whose
    text does not; and no message at all exactly for an error of another
    code that has no text. *)
Theorem X9_classification_read_backwards (error : Regional.provider_error) :
  (Regional.classify error = Some (Js.lit "Invalid phone number format")
   ↔ Regional.code error = Some 21211)
  ∧ (Regional.classify error
     = Some (Js.lit "SMS is not available for this number/region")
     ↔ Regional.code error = Some 21408)
  ∧ (Regional.classify error = Some (Js.lit "Phone number is blacklisted")
     ↔ Regional.code error = Some 21610)
  ∧ (Regional.classify error = Some (Js.lit "Phone number is not SMS capable")
     ↔ Regional.code error = Some 21614)
  ∧ (Regional.classify error = Some (Js.lit "SMS service configuration error")
     ↔ Inv.unlisted error
       ∧ ∃ m, Regional.message error = Some m
              ∧ Js.includes (Js.lit "Authentication Error") m = true)
  ∧ (Regional.classify error = Some (Js.lit "Failed to send SMS")
     ↔ Inv.unlisted error
       ∧ ∃ m, Regional.message error = Some m
              ∧ Js.includes (Js.lit "Authentication Error") m = false)
  ∧ (Regional.classify error = None
     ↔ Inv.unlisted error ∧ Regional.message error = None).
Proof.
  rewrite unlisted_spec, <- !code_is_true. unfold Regional.classify.
  assert (Hexcl : ∀ n n', n ≠ n' → Regional.code_is error n = true →
                          Regional.code_is error n' = false).
  { intros n n' Hne. unfold Regional.code_is.
    destruct (Regional.code error) as [c|]; [|done].
    rewrite Z.eqb_eq, Z.eqb_neq. lia. }
  destruct (Regional.code_is error 21211) eqn:H1.
  { rewrite (Hexcl 21211 21408), (Hexcl 21211 21610), (Hexcl 21211 21614)
      by (done || lia).
    split_and!; split; intros H; try done; try literal_clash;
      by destruct H as [[? ?] ?]. }
  destruct (Regional.code_is error 21408) eqn:H2.
  { rewrite (Hexcl 21408 21610), (Hexcl 21408 21614) by (done || lia).
    split_and!; split; intros H; try done; try literal_clash;
      by destruct H as [[? [? ?]] ?]. }
  destruct (Regional.code_is error 21610) eqn:H3.
  { rewrite (Hexcl 21610 21614) by (done || lia).
    split_and!; split; intros H; try done; try literal_clash;
      by destruct H as [[? [? [? ?]]] ?]. }
  destruct (Regional.code_is error 21614) eqn:H4.
  { split_and!; split; intros H; try done; try literal_clash;
      by destruct H as [[? [? [? ?]]] ?]. }
  destruct (Regional.message error) as [m|].
  - destruct (Js.includes (Js.lit "Authentication Error") m) eqn:Hinc;
      split_and!; split; intros H; try done; try literal_clash;
      try (by split; [done|exists m]);
      try (by destruct H as [_ (m' & [= <-] & ?)]; congruence);
      by destruct H as [_ ?].
  - split_and!; split; intros H; try done; try literal_clash;
      by destruct H as [_ (m' & ? & ?)].
Qed.

(** ** The shape of accepted numbers *)

Section Shapes.
Import Http.

Lemma forallb_elem (p : N → bool) (l : list N) (c : N) :
  forallb p l = true → c ∈ l → p c = true.
Proof.
  intros Hall Hc. apply list_elem_of_In in Hc.
  by apply (proj1 (forallb_forall p l) Hall).
Qed.

(** A character of a string either is a separator or survives stripping. *)
Lemma kept_or_separator (raw : Js.str) (c : N) :
  c ∈ raw →
  (Js.is_space c || (c =? Js.hyphen)%N) = true ∨ c ∈ Js.strip_space_hyphen raw.
Proof.
  intros Hc. destruct (Js.is_space c || (c =? Js.hyphen)%N) eqn:Hsep;
    [by left|right].
  unfold Js.strip_space_hyphen. apply list_elem_of_filter.
  by rewrite Hsep.
Qed.

Lemma kept_or_space (raw : Js.str) (c : N) :
  c ∈ raw → Js.is_space c = true ∨ c ∈ Js.strip_space raw.
Proof.
  intros Hc. destruct (Js.is_space c) eqn:Hsep; [by left|right].
  unfold Js.strip_space. apply list_elem_of_filter. by rewrite Hsep.
Qed.

End Shapes.

(** X10.  A number the regional validator accepts is written with digits,
    plus signs, blanks and hyphens only; without its blanks and hyphens it
    has 11 or 13 characters, so the string itself has at least 11. *)
Theorem X10_accepted_regional_shape (raw : Js.str) :
  Regional.isValidPhilippinePhone raw = true →
  Forall (λ c, Inv.dialling_char c = true) raw
  ∧ (length (Js.strip_space_hyphen raw) = 11
     ∨ length (Js.strip_space_hyphen raw) = 13)%nat
  ∧ (11 ≤ length raw)%nat.
Proof.
  intros Hv. apply isValidPhilippinePhone_spec in Hv as (d & Hs & Hl & Hd).
  assert (Hlen : (length (Js.strip_space_hyphen raw) = 11
                  ∨ length (Js.strip_space_hyphen raw) = 13)%nat).
  { destruct Hs as [-> | ->]; rewrite length_app, Hl; simpl; lia. }
  split_and!; [|done|].
  - apply Forall_forall. intros c Hc. unfold Inv.dialling_char.
    destruct (kept_or_separator raw c Hc) as [Hsep|Hkept].
    + apply orb_true_iff in Hsep as [-> | ->]; by rewrite ?orb_true_r.
    + assert (Hin : c ∈ Js.lit "+639" ∨ c ∈ Js.lit "09" ∨ c ∈ d).
      { destruct Hs as [Hs|Hs]; rewrite Hs in Hkept;
          apply elem_of_app in Hkept; tauto. }
      destruct Hin as [Hin|[Hin|Hin]].
      * simpl in Hin. rewrite !elem_of_cons, elem_of_nil in Hin.
        destruct Hin as [->|[->|[->|[->|[]]]]]; done.
      * simpl in Hin. rewrite !elem_of_cons, elem_of_nil in Hin.
        destruct Hin as [->|[->|[]]]; done.
      * by rewrite (forallb_elem Js.is_digit d c Hd Hin).
  - assert (Hle : (length (Js.strip_space_hyphen raw) ≤ length raw)%nat)
      by apply length_filter.
    lia.
Qed.

Lemma X10_accepted_regional_shape_witness :
  (11 ≤ length (Js.lit "0917-123-4567"))%nat.
Proof.
  apply (X10_accepted_regional_shape (Js.lit "0917-123-4567")). reflexivity.
Defined.

(** X11.  A number the generic validator accepts is written with digits,
    plus signs and blanks only; without its blanks it has 2 to 16
    characters. *)
Theorem X11_accepted_generic_shape (raw : Js.str) :
  Generic.phone_ok raw = true →
  Forall (λ c, (Js.is_digit c || (c =? 43)%N || Js.is_space c) = true) raw
  ∧ (2 ≤ length (Js.strip_space raw) ≤ 16)%nat.
Proof.
  intros Hv.
  apply phone_ok_spec in Hv as (sign & digits & Hs & Hsign & Hl & Hd & _).
  split.
  - apply Forall_forall. intros c Hc.
    destruct (kept_or_space raw c Hc) as [->|Hkept]; [by rewrite orb_true_r|].
    rewrite Hs in Hkept. apply elem_of_app in Hkept as [Hin|Hin].
    + destruct Hsign as [-> | ->]; [by apply elem_of_nil in Hin|].
      simpl in Hin. rewrite !elem_of_cons, elem_of_nil in Hin.
      destruct Hin as [->|[]]. done.
    + by rewrite (forallb_elem Js.is_digit digits c Hd Hin).
  - rewrite Hs, length_app. destruct Hsign as [-> | ->]; simpl; lia.
Qed.

Lemma X11_accepted_generic_shape_witness :
  (2 ≤ length (Js.strip_space (Js.lit "+1 415 555 2671")) ≤ 16)%nat.
Proof.
  apply (X11_accepted_generic_shape (Js.lit "+1 415 555 2671")). reflexivity.
Defined.

(** ** Requests with something missing, and the generic outcome *)

(** X12.  Both servers answer with the missing-parameters error exactly
    when one of phone, sender and text is absent or is the empty string; the
    check comes first, so nothing else about the request matters then, and
    no other failure is reported with that response. *)
Theorem X12_missing_parameters (q : Http.query) :
  (∀ origin (cooldown : gmap Js.str Z) now,
     Regional.handler_begin origin cooldown q now
     = (cooldown, [], Regional.Responded Http.missing_parameters)
     ↔ Inv.blank (Http.phone q) ∨ Inv.blank (Http.sender q)
       ∨ Inv.blank (Http.text q))
  ∧ (∀ e, Generic.handler q e = ([], Some Http.missing_parameters)
          ↔ Inv.blank (Http.phone q) ∨ Inv.blank (Http.sender q)
            ∨ Inv.blank (Http.text q)).
Proof.
  split.
  - intros origin cooldown now. rewrite <- !present_None.
    unfold Regional.handler_begin.
    destruct (Http.present (Http.phone q)) as [p|]; [|by split; auto].
    destruct (Http.present (Http.sender q)) as [s|];
      [|by destruct p; (split; auto)].
    destruct (Http.present (Http.text q)) as [t|];
      [|by destruct p; (split; auto)].
    split; [|by intros [?|[?|?]]]. intros H. exfalso.
    destruct p as [p|items|fs x]; [|discriminate H..].
    destruct (negb (Regional.isValidPhilippinePhone p));
      [vm_compute in H; discriminate H|].
    destruct (Js.length_exceeds t 160); [vm_compute in H; discriminate H|].
    destruct (Js.length_exceeds s 11); [vm_compute in H; discriminate H|].
    destruct (Regional.cooling _ _ _); [|discriminate H].
    injection H; intros; congruence.
  - intros e. rewrite <- !present_None. unfold Generic.handler.
    destruct (Http.present (Http.phone q)) as [p|]; [|by split; auto].
    destruct (Http.present (Http.sender q)) as [s|];
      [|by destruct p; (split; auto)].
    destruct (Http.present (Http.text q)) as [t|];
      [|by destruct p; (split; auto)].
    split; [|by intros [?|[?|?]]]. intros H. exfalso.
    destruct p as [p|items|fs x]; [|discriminate H..].
    destruct (negb (Generic.phone_ok p)); [vm_compute in H; discriminate H|].
    destruct (Js.length_exceeds t 160); [vm_compute in H; discriminate H|].
    rewrite try_block_completes in H. discriminate H.
Qed.



(** ** Spellings of one number, and the log line *)

Section Spellings.
Import Regional.

Lemma isValidPhilippinePhone_spellings (rest : Js.str) :
  isValidPhilippinePhone (Js.lit "09" ++ rest)
  = isValidPhilippinePhone (Js.lit "+639" ++ rest).
Proof.
  apply eq_true_iff_eq. rewrite !isValidPhilippinePhone_spec.
  rewrite !strip_space_hyphen_app.
  change (Js.strip_space_hyphen (Js.lit "09")) with (Js.lit "09").
  change (Js.strip_space_hyphen (Js.lit "+639")) with (Js.lit "+639").
  split; intros (d & Hs & Hd); exists d; (split; [|done]).
  - left. destruct Hs as [Hs|Hs]; [discriminate Hs|].
    f_equal. by apply (inj (app (Js.lit "09"))) in Hs.
  - right. destruct Hs as [Hs|Hs]; [|discriminate Hs].
    f_equal. by apply (inj (app (Js.lit "+639"))) in Hs.
Qed.

Lemma to_international_kept (rest : Js.str) :
  to_international (Js.lit "+639" ++ rest) = Js.lit "+639" ++ rest.
Proof. done. Qed.

End Spellings.

(** X14.  The local and the international spelling of a number are one
    destination: [09] followed by some rest and [+639] followed by the same
    rest are accepted or refused together, and when accepted the handler
    goes on with the same string for both, so they share one cooldown entry
    and a reservation made under one spelling denies the other. *)
Theorem X14_spellings_share_a_slot (rest : Js.str) :
  Regional.normalize (Js.lit "09" ++ rest)
  = Regional.normalize (Js.lit "+639" ++ rest)
  ∧ ∀ origin (cooldown : gmap Js.str Z) sender text t t',
      t ≠ 0 → 0 ≤ t' - t < 10000 →
      Regional.admitted origin (Regional.System cooldown [])
        (Http.Query (Some (Js.VStr (Js.lit "09" ++ rest))) sender text) t
      = true →
      Regional.admitted origin
        (Regional.step origin (Regional.System cooldown [])
           (Regional.Request
              (Http.Query (Some (Js.VStr (Js.lit "09" ++ rest))) sender text)
              t)).1
        (Http.Query (Some (Js.VStr (Js.lit "+639" ++ rest))) sender text) t'
      = false.
Proof.
  assert (Hn : Regional.normalize (Js.lit "09" ++ rest)
               = Regional.normalize (Js.lit "+639" ++ rest)).
  { unfold Regional.normalize. rewrite isValidPhilippinePhone_spellings.
    by rewrite to_international_local, to_international_kept. }
  split; [done|].
  intros origin cooldown sender text t t' Hnz Hwin.
  unfold Regional.admitted. cbn [Regional.step Regional.store].
  rewrite !handler_begin_validate.
  unfold Regional.validate. cbn [Http.phone Http.sender Http.text].
  change (Http.present (Some (Js.VStr (Js.lit "09" ++ rest))))
    with (Some (Js.VStr (Js.lit "09" ++ rest))).
  change (Http.present (Some (Js.VStr (Js.lit "+639" ++ rest))))
    with (Some (Js.VStr (Js.lit "+639" ++ rest))).
  destruct (Http.present sender) as [s|]; [|done].
  destruct (Http.present text) as [x|]; [|done].
  rewrite <- isValidPhilippinePhone_spellings.
  destruct (Regional.isValidPhilippinePhone (Js.lit "09" ++ rest)); [|done].
  cbn [negb]. rewrite to_international_local, to_international_kept.
  destruct (Js.length_exceeds x 160); [done|].
  destruct (Js.length_exceeds s 11); [done|].
  cbn [Regional.k_phone].
  destruct (Regional.cooling cooldown (Js.lit "+639" ++ rest) t); [done|].
  intros _. cbn [Regional.store fst].
  by rewrite (cooling_Some _ _ t' t)
    by (apply lookup_insert_eq || done || lia).
Qed.

Lemma X14_spellings_share_a_slot_witness :
  Regional.admitted None
    (Regional.step None (Regional.System ∅ [])
       (Regional.Request Sample.request 1700000000000)).1
    (Http.Query (Some (Js.VStr (Js.lit "+639171234567")))
       (Some (Js.VStr (Js.lit "TEST"))) (Some (Js.VStr (Js.lit "Hello"))))
    1700000003000
  = false.
Proof.
  destruct (X14_spellings_share_a_slot (Js.lit "171234567")) as [_ H].
  apply (H None ∅ (Some (Js.VStr (Js.lit "TEST")))
           (Some (Js.VStr (Js.lit "Hello")))
           1700000000000 1700000003000); [lia | lia | reflexivity].
Defined.

(** X15.  The log line of a successful send never carries more than the
    first 50 code units of the text: a text (a string) of at most 50 is
    logged whole, a longer one as its first 50 followed by three dots, 53 in
    all. *)
Theorem X15_log_excerpt_bounded (cooldown : gmap Js.str Z)
    (k : Regional.pending) (sid : Js.str) (t : Regional.stamps)
    (text : Js.str) :
  Regional.k_text k = Js.VStr text →
  ∃ excerpt,
    (Regional.handler_resume cooldown k (Regional.Sent sid) t).1.2
    = [Regional.ConsoleLog
         [("phone", Http.JString (Regional.k_phone k));
          ("sender", Http.JValue (Regional.k_sender k));
          ("text", Http.JString excerpt);
          ("messageId", Http.JString sid);
          ("timestamp", Http.JString (Regional.at_log t))]%string]
    ∧ (length excerpt ≤ 53)%nat
    ∧ take 50 excerpt = take 50 text
    ∧ ((length text ≤ 50)%nat → excerpt = text)
    ∧ ((50 < length text)%nat →
       excerpt = take 50 text ++ Js.lit "..." ∧ length excerpt = 53%nat).
Proof.
  intros Hk. exists (Regional.log_excerpt text). split.
  { cbn [Regional.handler_resume]. by rewrite Hk. }
  unfold Regional.log_excerpt, Js.substring0, Js.len.
  destruct (Z.gtb_spec (Z.of_nat (length text)) 50) as [Hlong|Hshort].
  - assert (Hl : length (take 50 text) = 50%nat) by (rewrite length_take; lia).
    split_and!.
    + rewrite length_app, Hl. simpl. lia.
    + rewrite take_app_le by lia. rewrite take_take. done.
    + lia.
    + intros _. split; [done|]. rewrite length_app, Hl. done.
  - rewrite app_nil_r. split_and!.
    + rewrite length_take. lia.
    + by rewrite take_take.
    + intros _. apply take_ge. lia.
    + lia.
Qed.

Lemma X15_log_excerpt_bounded_witness :
  Regional.log_excerpt (Js.lit "Hello") = Js.lit "Hello".
Proof.
  destruct (X15_log_excerpt_bounded ∅ Sample.waiting (Js.lit "SM1")
              Sample.stamps (Js.lit "Hello") eq_refl)
    as (excerpt & Hlog & _ & _ & Hshort & _).
  injection Hlog as <-. apply Hshort. simpl. lia.
Defined.
